(** * The MetaVal tool-info module of BenchExec

    A shallow embedding of [benchexec/tools/metaval.py]: the class [Tool],
    its lazily resolved wrapped tool, the working-directory context
    manager [_in_tool_directory], [determine_result] and [cmdline].

    Python code is embedded in a state-and-exception monad.  The state
    holds the two lazily created attributes of the adapter instance
    ([self.verifierName], [self.wrappedTool]), the working directory of
    the process, and a log of the calls the adapter makes to its
    collaborators.  [sys.exit] raises [SystemExit], as it does in Python. *)

From Stdlib Require Import String Ascii List ZArith Bool Lia.
Import ListNotations.

Open Scope string_scope.
Open Scope list_scope.

(** ** Python outcomes *)

(** The argument of [sys.exit]: a string is printed on the error stream
    and the exit status is 1; an integer is the exit status itself. *)
Inductive exit_code : Type :=
| ExitMessage (msg : string)
| ExitStatus (status : Z).

Inductive exn : Type :=
| SystemExit (code : exit_code)
| KeyError (key : string)
| AttributeError (attr : string)
| TypeError (what : string)
| FileNotFoundError (path : string)
| ImportError (module : string)
| OtherError (what : string).

Inductive outcome (A : Type) : Type :=
| Returned (a : A)
| Raised (e : exn).

Arguments Returned {A} a.
Arguments Raised {A} e.

(** ** The collaborators *)

(** [rlimits={}]: a dict of resource limits, passed through untouched. *)
Definition rlimits : Type := list (string * Z).

(** The contract of a tool-info module ([benchexec.tools.template.BaseTool])
    as far as this adapter consumes it.  A wrapped tool reads the working
    directory of the process (its first argument here) and either returns
    or raises. *)
Record BaseTool : Type := {
  tool_executable : string -> outcome string;
  tool_cmdline :
    string -> string -> list string -> list string -> string -> rlimits ->
    outcome (list string);
  tool_determine_result :
    string -> Z -> Z -> list string -> bool -> outcome string
}.

(** The namespace [argparse] fills for the four options of [cmdline];
    an option that is not given is [None]. *)
Record Namespace : Type := {
  metavalWitness : string;
  metaval : string;
  metavalAdditionalPATH : option string;
  metavalWitnessType : option string
}.

(** What the Python library and the file system do:
    - [parse_known_args]: the parser of [cmdline] on an option list, [None]
      when [argparse] reports a usage error (it exits with status 2);
    - [import_Tool m]: what evaluating [__import__(m, fromlist=["Tool"]).Tool()]
      gives, the constructed wrapped tool or the exception raised;
    - [isdir]: the directories [os.chdir] can enter;
    - [path_join]: [os.path.join];
    - [relpath start p]: [os.path.relpath(p)] when the working directory
      is [start]. *)
Class Platform : Type := {
  parse_known_args : list string -> option (Namespace * list string);
  import_Tool : string -> outcome BaseTool;
  isdir : string -> bool;
  path_join : string -> string -> string;
  relpath : string -> string -> string
}.

(** ** State *)

(** The calls the adapter makes, in the order it makes them. *)
Inductive event : Type :=
| EvImport (module : string)
| EvChdir (path : string)
| EvExecutable (cwd : string)
| EvCmdline (cwd : string) (executable : string) (options tasks : list string)
            (propertyfile : string) (rl : rlimits)
| EvDetermineResult (cwd : string) (returncode returnsignal : Z)
                    (output : list string) (isTimeout : bool).

(** An attribute of [self] that was never assigned is [None]
    ([hasattr] is false). *)
Record state : Type := {
  verifierName : option string;
  wrappedTool : option BaseTool;
  cwd : string;
  events : list event
}.

(** [Tool.__init__] creates the lock and nothing else. *)
Definition init (dir : string) : state :=
  {| verifierName := None; wrappedTool := None; cwd := dir; events := [] |}.

Definition log (e : event) (s : state) : state :=
  {| verifierName := verifierName s; wrappedTool := wrappedTool s;
     cwd := cwd s; events := events s ++ [e] |}.

Definition set_cwd (d : string) (s : state) : state :=
  {| verifierName := verifierName s; wrappedTool := wrappedTool s;
     cwd := d; events := events s |}.

Definition set_verifierName (v : string) (s : state) : state :=
  {| verifierName := Some v; wrappedTool := wrappedTool s;
     cwd := cwd s; events := events s |}.

Definition set_wrappedTool (t : BaseTool) (s : state) : state :=
  {| verifierName := verifierName s; wrappedTool := Some t;
     cwd := cwd s; events := events s |}.

(** ** The monad *)

Definition M (A : Type) : Type := state -> state * outcome A.

Definition ret {A} (a : A) : M A := fun s => (s, Returned a).

Definition raise {A} (e : exn) : M A := fun s => (s, Raised e).

Definition bind {A B} (m : M A) (k : A -> M B) : M B :=
  fun s =>
    match m s with
    | (s', Returned a) => k a s'
    | (s', Raised e) => (s', Raised e)
    end.

Declare Scope py_scope.
Delimit Scope py_scope with py.
Notation "x <- m ;; k" := (bind m (fun x => k))
  (at level 61, m at next level, right associativity) : py_scope.
Notation "m ;; k" := (bind m (fun _ => k))
  (at level 61, right associativity) : py_scope.
Open Scope py_scope.

(** [try: body finally: fin].  The [finally] clause runs on every way out
    of the body; an exception it raises replaces the body's outcome. *)
Definition try_finally {A} (body : M A) (fin : M unit) : M A :=
  fun s =>
    let (s1, r) := body s in
    match fin s1 with
    | (s2, Returned _) => (s2, r)
    | (s2, Raised e) => (s2, Raised e)
    end.

(** [with self.lock: body].  One thread runs the adapter here, so the lock
    is free when the block is entered and free again when it is left. *)
Definition with_lock {A} (body : M A) : M A := body.

Definition sys_exit {A} (msg : string) : M A :=
  raise (SystemExit (ExitMessage msg)).

Definition modify (f : state -> state) : M unit :=
  fun s => (f s, Returned tt).

(** ** Strings and dicts *)

(** [str.lower] on ASCII. *)
Definition lower_ascii (c : ascii) : ascii :=
  let n := nat_of_ascii c in
  if andb (Nat.leb 65 n) (Nat.leb n 90) then ascii_of_nat (n + 32) else c.

Fixpoint lower (s : string) : string :=
  match s with
  | EmptyString => EmptyString
  | String c s' => String (lower_ascii c) (lower s')
  end.

(** Truth value of a string. *)
Definition truthy (s : string) : bool :=
  match s with
  | EmptyString => false
  | String _ _ => true
  end.

Fixpoint dict_get (d : list (string * string)) (k : string) : option string :=
  match d with
  | [] => None
  | (k', v) :: d' => if String.eqb k k' then Some v else dict_get d' k
  end.

(** [d[k]] *)
Definition dict_getitem (d : list (string * string)) (k : string) : M string :=
  match dict_get d k with
  | Some v => ret v
  | None => raise (KeyError k)
  end.

(** ** class Tool *)

Definition TOOL_TO_PATH_MAP : list (string * string) :=
  [ ("cpachecker-metaval", "CPAchecker");
    ("cpachecker", "CPAchecker-1.7-svn 29852-unix");
    ("esbmc", "esbmc");
    ("symbiotic", "symbiotic");
    ("yogar-cbmc", "yogar-cbmc");
    ("ultimateautomizer", "UAutomizer-linux") ].

Definition REQUIRED_PATHS : list string := map snd TOOL_TO_PATH_MAP.

Definition name : string := "metaval".

Definition hasattr_wrappedTool : M bool :=
  fun s =>
    (s, Returned (match wrappedTool s with Some _ => true | None => false end)).

Definition getattr_wrappedTool : M BaseTool :=
  fun s =>
    match wrappedTool s with
    | Some t => (s, Returned t)
    | None => (s, Raised (AttributeError "wrappedTool"))
    end.

Definition getattr_verifierName : M string :=
  fun s =>
    match verifierName s with
    | Some v => (s, Returned v)
    | None => (s, Raised (AttributeError "verifierName"))
    end.

Definition os_getcwd : M string := fun s => (s, Returned (cwd s)).

Section Adapter.
Context {platform : Platform}.

Definition os_chdir (path : string) : M unit :=
  fun s =>
    let s' := log (EvChdir path) s in
    if isdir path then (set_cwd path s', Returned tt)
    else (s', Raised (FileNotFoundError path)).

(** [os.path.relpath(p)]: relative to the working directory of the moment. *)
Definition os_path_relpath (p : string) : M string :=
  fun s => (s, Returned (relpath (cwd s) p)).

(** [os.path.join(a, b)]; [b] is [None] when [propertyfile] was omitted. *)
Definition os_path_join (a : string) (b : option string) : M string :=
  match b with
  | Some b' => ret (path_join a b')
  | None => raise (TypeError "expected str, bytes or os.PathLike object, not NoneType")
  end.

Definition import_wrapped (module : string) : M BaseTool :=
  fun s => (log (EvImport module) s, import_Tool module).

Definition call_executable (t : BaseTool) : M string :=
  fun s => (log (EvExecutable (cwd s)) s, tool_executable t (cwd s)).

Definition call_cmdline (t : BaseTool) (executable : string)
    (options tasks : list string) (propertyfile : string) (rl : rlimits)
    : M (list string) :=
  fun s =>
    (log (EvCmdline (cwd s) executable options tasks propertyfile rl) s,
     tool_cmdline t (cwd s) executable options tasks propertyfile rl).

Definition call_determine_result (t : BaseTool) (returncode returnsignal : Z)
    (output : list string) (isTimeout : bool) : M string :=
  fun s =>
    (log (EvDetermineResult (cwd s) returncode returnsignal output isTimeout) s,
     tool_determine_result t (cwd s) returncode returnsignal output isTimeout).

(** [_in_tool_directory], with the body of the [with] statement that uses
    it.  [os.getcwd()] does not fail here, so [oldcwd] is bound when the
    [finally] clause runs. *)
Definition _in_tool_directory {A} (body : string -> M A) : M A :=
  with_lock (
    oldcwd <- os_getcwd ;;
    try_finally
      (v <- getattr_verifierName ;;
       dir <- dict_getitem TOOL_TO_PATH_MAP v ;;
       os_chdir (path_join oldcwd dir) ;;
       body oldcwd)
      (os_chdir oldcwd)).

Definition determine_result (returncode returnsignal : Z)
    (output : list string) (isTimeout : bool) : M string :=
  has <- hasattr_wrappedTool ;;
  if negb has then ret "METAVAL ERROR"
  else
    _in_tool_directory (fun _ =>
      t <- getattr_wrappedTool ;;
      call_determine_result t returncode returnsignal output isTimeout).

(** [parser.parse_known_args(options)] *)
Definition parse_options (options : list string)
    : M (Namespace * list string) :=
  match parse_known_args options with
  | Some r => ret r
  | None => raise (SystemExit (ExitStatus 2))
  end.

(** [[flag, value] if value else []] *)
Definition optional_argument (flag : string) (value : option string)
    : list string :=
  match value with
  | Some v => if truthy v then [flag; v] else []
  | None => []
  end.

(** ["benchexec.tools." + verifierName] *)
Definition module_name (verifierName : string) : string :=
  "benchexec.tools." ++ verifierName.

(** Lines 104-112: the block under the lock that resolves the wrapped
    tool on the first call and checks the identifier on the later ones. *)
Definition resolve_wrappedTool (verifierName : string) : M unit :=
  with_lock (
    has <- hasattr_wrappedTool ;;
    if negb has then
      modify (set_verifierName verifierName) ;;
      t <- import_wrapped (module_name verifierName) ;;
      modify (set_wrappedTool t)
    else
      recorded <- getattr_verifierName ;;
      if negb (String.eqb verifierName recorded)
      then sys_exit "metaval is called with mixed wrapped tools"
      else ret tt).

(** Lines 115-136: the branch taken when the wrapped tool is set. *)
Definition build_cmdline (executable : string) (knownargs : Namespace)
    (options tasks : list string) (propertyfile : option string)
    (rl : rlimits) : M (list string) :=
  let verifierName := lower (metaval knownargs) in
  let witnessName := metavalWitness knownargs in
  let additionalPathArgument :=
    optional_argument "--additionalPATH" (metavalAdditionalPATH knownargs) in
  let witnessTypeArgument :=
    optional_argument "--witnessType" (metavalWitnessType knownargs) in
  wrappedOptions <-
    _in_tool_directory (fun oldcwd =>
      t <- getattr_wrappedTool ;;
      exe <- call_executable t ;;
      task <- (p <- os_path_join oldcwd (Some "output/ARG.c") ;;
               os_path_relpath p) ;;
      prop <- (p <- os_path_join oldcwd propertyfile ;;
               os_path_relpath p) ;;
      call_cmdline t exe options [task] prop rl) ;;
  dir <- dict_getitem TOOL_TO_PATH_MAP verifierName ;;
  ret ([executable; "--verifier"; dir; "--witness"; witnessName]
         ++ additionalPathArgument
         ++ witnessTypeArgument
         ++ tasks
         ++ ["--"]
         ++ wrappedOptions).

Definition cmdline (executable : string) (options tasks : list string)
    (propertyfile : option string) (rl : rlimits) : M (list string) :=
  parsed <- parse_options options ;;
  let knownargs := fst parsed in
  let options := snd parsed in
  resolve_wrappedTool (lower (metaval knownargs)) ;;
  has <- hasattr_wrappedTool ;;
  if has then
    build_cmdline executable knownargs options tasks propertyfile rl
  else
    sys_exit "ERROR: Could not find wrapped tool".

End Adapter.

(** ** Calls on one instance *)

(** A Runner drives an instance through a series of calls; a call that
    raises leaves the instance in the state it had reached. *)
Inductive call : Type :=
| CallCmdline (executable : string) (options tasks : list string)
              (propertyfile : option string) (rl : rlimits)
| CallDetermineResult (returncode returnsignal : Z) (output : list string)
                      (isTimeout : bool).

Definition step {platform : Platform} (c : call) (s : state) : state :=
  match c with
  | CallCmdline e o t p r => fst (cmdline e o t p r s)
  | CallDetermineResult rc rs out to => fst (determine_result rc rs out to s)
  end.

Definition run {platform : Platform} (cs : list call) (s : state) : state :=
  fold_left (fun s c => step c s) cs s.

Definition is_import (e : event) : bool :=
  match e with
  | EvImport _ => true
  | _ => false
  end.

(** How often the wrapped tool was loaded and constructed. *)
Definition imports (s : state) : nat := length (filter is_import (events s)).

(** The identifier a call to [cmdline] carries, when its options parse. *)
Definition requests {platform : Platform} (c : call) (v : string) : Prop :=
  match c with
  | CallCmdline _ o _ _ _ =>
      exists kn rest, parse_known_args o = Some (kn, rest) /\ lower (metaval kn) = v
  | CallDetermineResult _ _ _ _ => False
  end.

(** ** A platform to run the adapter on

    A file system with the directories [/bench] and [/bench/esbmc], tool-info
    modules [esbmc] and [cbmc], and the path functions of [posixpath]. *)
Module Demo.

Definition slash : ascii := "/"%char.

Definition isabs (p : string) : bool :=
  match p with
  | String c _ => Ascii.eqb c slash
  | EmptyString => false
  end.

Fixpoint endswith_slash (p : string) : bool :=
  match p with
  | EmptyString => false
  | String c EmptyString => Ascii.eqb c slash
  | String _ p' => endswith_slash p'
  end.

(** [posixpath.join(a, b)] *)
Definition join (a b : string) : string :=
  if isabs b then b
  else if orb (negb (truthy a)) (endswith_slash a) then a ++ b
  else a ++ "/" ++ b.

(** [p.split("/")] *)
Fixpoint split (p : string) : list string :=
  match p with
  | EmptyString => [""]
  | String c p' =>
      if Ascii.eqb c slash then "" :: split p'
      else match split p' with
           | x :: xs => String c x :: xs
           | [] => [String c ""]
           end
  end.

(** One step of [posixpath.normpath] on an absolute path; the components
    kept so far are in reverse order. *)
Definition norm_step (kept : list string) (comp : string) : list string :=
  if orb (String.eqb comp "") (String.eqb comp ".") then kept
  else if String.eqb comp ".." then tl kept
  else comp :: kept.

(** The components of [posixpath.abspath(p)] when the working directory
    is [start]. *)
Definition abs_components (start p : string) : list string :=
  rev (fold_left norm_step (split (join start p)) []).

Fixpoint strip_common (xs ys : list string) : list string * list string :=
  match xs, ys with
  | x :: xs', y :: ys' =>
      if String.eqb x y then strip_common xs' ys' else (xs, ys)
  | _, _ => (xs, ys)
  end.

Fixpoint join_all (comps : list string) : string :=
  match comps with
  | [] => ""
  | [c] => c
  | c :: cs => c ++ "/" ++ join_all cs
  end.

(** [posixpath.relpath(p)] when the working directory is [start]. *)
Definition posix_relpath (start p : string) : string :=
  let (up, down) :=
    strip_common (abs_components start ".") (abs_components start p) in
  match (map (fun _ => "..") up ++ down)%list with
  | [] => "."
  | rel => join_all rel
  end.

(** The parser of [cmdline] on option lists in which each of the four
    options is written in full and followed by its value as the next
    string, a string that does not start with a dash; every other string
    is left over. *)
Record partial : Type := {
  p_witness : option string;
  p_metaval : option string;
  p_path : option string;
  p_type : option string
}.

Definition store (flag value : string) (ns : partial) : option partial :=
  if String.eqb flag "--metavalWitness" then
    Some {| p_witness := Some value; p_metaval := p_metaval ns;
            p_path := p_path ns; p_type := p_type ns |}
  else if String.eqb flag "--metaval" then
    Some {| p_witness := p_witness ns; p_metaval := Some value;
            p_path := p_path ns; p_type := p_type ns |}
  else if String.eqb flag "--metavalAdditionalPATH" then
    Some {| p_witness := p_witness ns; p_metaval := p_metaval ns;
            p_path := Some value; p_type := p_type ns |}
  else if String.eqb flag "--metavalWitnessType" then
    Some {| p_witness := p_witness ns; p_metaval := p_metaval ns;
            p_path := p_path ns; p_type := Some value |}
  else None.

Definition is_flag (a : string) : bool :=
  match store a "" {| p_witness := None; p_metaval := None;
                      p_path := None; p_type := None |} with
  | Some _ => true
  | None => false
  end.

Definition starts_with_dash (a : string) : bool :=
  match a with
  | String c _ => Ascii.eqb c "-"%char
  | EmptyString => false
  end.

Fixpoint scan (args : list string) (ns : partial) (extras : list string)
    : option (partial * list string) :=
  match args with
  | [] => Some (ns, rev extras)
  | a :: rest =>
      if is_flag a then
        match rest with
        | v :: rest' =>
            if starts_with_dash v then None
            else match store a v ns with
                 | Some ns' => scan rest' ns' extras
                 | None => None
                 end
        | [] => None
        end
      else scan rest ns (a :: extras)
  end.

Definition parse (options : list string) : option (Namespace * list string) :=
  match scan options {| p_witness := None; p_metaval := None;
                        p_path := None; p_type := None |} [] with
  | Some (ns, extras) =>
      match p_witness ns, p_metaval ns with
      | Some w, Some m =>
          Some ({| metavalWitness := w; metaval := m;
                   metavalAdditionalPATH := p_path ns;
                   metavalWitnessType := p_type ns |}, extras)
      | _, _ => None
      end
  | None => None
  end.

(** A tool-info module standing in for the wrapped ones, which live in
    modules of their own. *)
Definition stub (binary : string) : BaseTool :=
  {| tool_executable := fun cwd => Returned (join cwd binary);
     tool_cmdline := fun _ exe options tasks prop _ =>
       Returned ([exe] ++ options ++ ["--property-file"; prop] ++ tasks);
     tool_determine_result := fun _ returncode _ _ isTimeout =>
       Returned (if isTimeout then "TIMEOUT"
                 else if Z.eqb returncode 0 then "true" else "unknown") |}.

Definition load (module : string) : outcome BaseTool :=
  if String.eqb module "benchexec.tools.esbmc" then Returned (stub "esbmc")
  else if String.eqb module "benchexec.tools.cbmc" then Returned (stub "cbmc")
  else Raised (ImportError module).

Definition directory (p : string) : bool :=
  orb (String.eqb p "/bench") (String.eqb p "/bench/esbmc").

#[export] Instance platform : Platform :=
  {| parse_known_args := parse;
     import_Tool := load;
     isdir := directory;
     path_join := join;
     relpath := posix_relpath |}.

Definition fresh : state := init "/bench".

Definition esbmc_options : list string :=
  ["--metaval"; "ESBMC"; "--metavalWitness"; "w.graphml"].

Definition cbmc_options : list string :=
  ["--metaval"; "cbmc"; "--metavalWitness"; "w.graphml"].

Definition missing_options : list string :=
  ["--metaval"; "nosuchtool"; "--metavalWitness"; "w.graphml"].

(** [--metavalAdditionalPATH] given with the empty string as its value. *)
Definition empty_path_options : list string :=
  esbmc_options ++ ["--metavalAdditionalPATH"; ""].

Definition call_with (options : list string) : call :=
  CallCmdline "metaval.sh" options ["t.c"] (Some "prop.prp") [].

Definition after_esbmc : state := step (call_with esbmc_options) fresh.

Definition after_cbmc : state := step (call_with cbmc_options) fresh.

Definition after_missing : state := step (call_with missing_options) fresh.

(** The instance after the resolution block of a first call for ESBMC. *)
Definition resolved_esbmc : state :=
  set_wrappedTool (stub "esbmc")
    (log (EvImport "benchexec.tools.esbmc") (set_verifierName "esbmc" fresh)).

(** What the wrapped tool of these examples returns as its arguments. *)
Definition esbmc_argv : list string :=
  ["/bench/esbmc/esbmc"; "--property-file"; "../prop.prp"; "../output/ARG.c"].

End Demo.

(** ** Vocabulary of the statements *)

(** The fatal error of a call that asks for another wrapped tool. *)
Definition mixed_tools : exn :=
  SystemExit (ExitMessage "metaval is called with mixed wrapped tools").

(** The fatal error of the last branch of [cmdline]. *)
Definition could_not_find : exn :=
  SystemExit (ExitMessage "ERROR: Could not find wrapped tool").

(** [os.chdir(dir)] when it succeeds. *)
Definition enter (dir : string) (s : state) : state :=
  set_cwd dir (log (EvChdir dir) s).

(** Two states with the same instance attributes and the same number of
    loads of a wrapped tool. *)
Definition same_self (s s' : state) : Prop :=
  verifierName s' = verifierName s
  /\ wrappedTool s' = wrappedTool s
  /\ imports s' = imports s.

Definition keeps_self {A} (m : M A) : Prop :=
  forall s, same_self s (fst (m s)).

(** An option with the value it was given. *)
Definition when_given (flag : string) (value : option string) : list string :=
  match value with
  | Some v => [flag; v]
  | None => []
  end.

(** A value that was given and is not the empty string. *)
Definition nonempty (value : option string) : option string :=
  match value with
  | Some v => if String.eqb v "" then None else Some v
  | None => None
  end.

(** The argument vector of MetaVal: the launcher, the directory of the
    wrapped tool, the witness, the two optional arguments, the tasks and,
    after the separator, the argument vector of the wrapped tool. *)
Definition argument_vector (executable dir witness : string)
    (additionalPath witnessType : option string) (tasks sub : list string)
    : list string :=
  [executable; "--verifier"; dir; "--witness"; witness]
    ++ when_given "--additionalPATH" additionalPath
    ++ when_given "--witnessType" witnessType
    ++ tasks
    ++ ["--"]
    ++ sub.

(** What the adapter does around the [cmdline] of the wrapped tool, from
    the working directory [cwd] and inside the tool directory [cwd/dir]. *)
Definition delegation {platform : Platform} (cwd dir exe : string)
    (rest : list string) (p : string) (rl : rlimits) : list event :=
  let tooldir := path_join cwd dir in
  [ EvChdir tooldir;
    EvExecutable tooldir;
    EvCmdline tooldir exe rest
      [relpath tooldir (path_join cwd "output/ARG.c")]
      (relpath tooldir (path_join cwd p)) rl;
    EvChdir cwd ].

(** [cmdline] without the test that follows the resolution block. *)
Definition cmdline_unchecked {platform : Platform} (executable : string)
    (options tasks : list string) (propertyfile : option string)
    (rl : rlimits) : M (list string) :=
  parsed <- parse_options options ;;
  resolve_wrappedTool (lower (metaval (fst parsed))) ;;
  build_cmdline executable (fst parsed) (snd parsed) tasks propertyfile rl.

(** A state in which the wrapped tool, when there is one, is the tool that
    the module of the recorded identifier gives. *)
Definition consistent {platform : Platform} (s : state) : Prop :=
  forall t, wrappedTool s = Some t ->
    exists v, verifierName s = Some v
              /\ import_Tool (module_name v) = Returned t.

(** The calls a call of the adapter may make when it starts in the working
    directory [cwd0]: loads, changes of directory to [cwd0] itself or to a
    required path inside it, and calls of the wrapped tool inside such a
    path. *)
Definition tool_directory {platform : Platform} (cwd0 p : string) : Prop :=
  exists dir, In dir REQUIRED_PATHS /\ p = path_join cwd0 dir.

Definition confined {platform : Platform} (cwd0 : string) (e : event) : Prop :=
  match e with
  | EvImport _ => True
  | EvChdir p => p = cwd0 \/ tool_directory cwd0 p
  | EvExecutable c => tool_directory cwd0 c
  | EvCmdline c _ _ _ _ _ => tool_directory cwd0 c
  | EvDetermineResult c _ _ _ _ => tool_directory cwd0 c
  end.

(** A call of the wrapped tool made in the directory [c]. *)
Definition tool_call_at (c : string) (e : event) : Prop :=
  match e with
  | EvExecutable c' => c' = c
  | EvCmdline c' _ _ _ _ _ => c' = c
  | EvDetermineResult c' _ _ _ _ => c' = c
  | _ => False
  end.

(** A computation that stays in its directory and only calls the wrapped
    tool there. *)
Definition calls_tool_only {A} (m : M A) : Prop :=
  forall s,
    cwd (fst (m s)) = cwd s
    /\ exists l, events (fst (m s)) = events s ++ l
                 /\ Forall (tool_call_at (cwd s)) l.

(** ** [version] *)

(** Characters are code points below 256.  The line boundaries of
    [str.splitlines] among them: LF, VT, FF, CR, FS, GS, RS and NEL. *)
Definition is_linebreak (c : ascii) : bool :=
  let n := nat_of_ascii c in
  orb (andb (Nat.leb 10 n) (Nat.leb n 13))
    (orb (andb (Nat.leb 28 n) (Nat.leb n 30)) (Nat.eqb n 133)).

(** The characters [str.strip] removes: TAB to CR, FS to space, NEL and
    the no-break space. *)
Definition is_space (c : ascii) : bool :=
  let n := nat_of_ascii c in
  orb (andb (Nat.leb 9 n) (Nat.leb n 13))
    (orb (andb (Nat.leb 28 n) (Nat.leb n 32))
       (orb (Nat.eqb n 133) (Nat.eqb n 160))).

Definition CR : ascii := ascii_of_nat 13.
Definition LF : ascii := ascii_of_nat 10.

(** [s.splitlines()]: a line ends at a line boundary, CR LF counts as one,
    and no empty line follows the last boundary. *)
Fixpoint splitlines (s : string) : list string :=
  match s with
  | EmptyString => []
  | String c s' =>
      if is_linebreak c then
        match s' with
        | String c' s'' =>
            if andb (Ascii.eqb c CR) (Ascii.eqb c' LF)
            then EmptyString :: splitlines s''
            else EmptyString :: splitlines s'
        | EmptyString => [EmptyString]
        end
      else
        match splitlines s' with
        | line :: lines => String c line :: lines
        | [] => [String c EmptyString]
        end
  end.

Fixpoint lstrip (s : string) : string :=
  match s with
  | EmptyString => EmptyString
  | String c s' => if is_space c then lstrip s' else s
  end.

Fixpoint rstrip (s : string) : string :=
  match s with
  | EmptyString => EmptyString
  | String c s' =>
      match rstrip s' with
      | EmptyString => if is_space c then EmptyString else String c EmptyString
      | r => String c r
      end
  end.

(** [s.strip()] *)
Definition strip (s : string) : string := rstrip (lstrip s).

(** [[][0]] *)
Definition IndexError : exn := OtherError "IndexError: list index out of range".

(** [Tool.version].  [_version_from_tool] is a method of the base class,
    which is defined elsewhere; the string it returns for an executable
    and an argument is taken as it comes. *)
Definition version (_version_from_tool : string -> string -> string)
    (executable : string) : outcome string :=
  let stdout := _version_from_tool executable "--version" in
  match splitlines stdout with
  | line :: _ => Returned (strip line)
  | [] => Raised IndexError
  end.


Fixpoint one_line (s : string) : bool :=
  match s with
  | EmptyString => true
  | String c s' => andb (negb (is_linebreak c)) (one_line s')
  end.

Definition starts_with_space (s : string) : bool :=
  match s with
  | EmptyString => false
  | String c _ => is_space c
  end.

Fixpoint ends_with_space (s : string) : bool :=
  match s with
  | EmptyString => false
  | String c EmptyString => is_space c
  | String _ s' => ends_with_space s'
  end.

(** ** More instances and outputs to run the adapter on *)

(** The options of the example with the identifier in lower case. *)
Definition lowercase_options : list string :=
  ["--metaval"; "esbmc"; "--metavalWitness"; "w.graphml"].

(** Options without the required witness. *)
Definition incomplete_options : list string := ["--metaval"; "esbmc"].

(** The instance of the example, in a directory without an [esbmc]
    directory inside. *)
Definition misplaced : state := set_cwd "/bench/esbmc" Demo.after_esbmc.

(** A wrapped tool whose executable cannot be found. *)
Definition broken_tool : BaseTool :=
  {| tool_executable := fun _ => Raised (OtherError "executable not found");
     tool_cmdline := fun _ exe options tasks _ _ => Returned (exe :: options ++ tasks);
     tool_determine_result := fun _ _ _ _ _ => Returned "unknown" |}.

Definition broken_instance : state :=
  {| verifierName := Some "esbmc"; wrappedTool := Some broken_tool;
     cwd := "/bench"; events := [] |}.

(** A string for [_version_from_tool] to return: two lines, the first
    with white space after the version. *)
Definition printed_version (_ _ : string) : string :=
  ("MetaVal 1.0 " ++ String LF "second line")%string.

(** * Properties *)

Section Properties.
Context {platform : Platform}.

(** ** The primitives *)

Lemma bind_returned {A B} (m : M A) (k : A -> M B) s s' a :
  m s = (s', Returned a) -> bind m k s = k a s'.
Proof. intros H. unfold bind. now rewrite H. Qed.

Lemma bind_raised {A B} (m : M A) (k : A -> M B) s s' e :
  m s = (s', Raised e) -> bind m k s = (s', Raised e).
Proof. intros H. unfold bind. now rewrite H. Qed.

(** ** What a computation leaves of the instance *)

Lemma same_self_refl s : same_self s s.
Proof. now repeat split. Qed.

Lemma same_self_trans s1 s2 s3 :
  same_self s1 s2 -> same_self s2 s3 -> same_self s1 s3.
Proof.
  intros (Hv & Hw & Hi) (Hv' & Hw' & Hi').
  repeat split; congruence.
Qed.

Lemma imports_log e s :
  imports (log e s) = imports s + (if is_import e then 1 else 0).
Proof.
  unfold imports, log. simpl. rewrite filter_app, length_app. simpl.
  now destruct (is_import e).
Qed.

Lemma same_self_log e s : is_import e = false -> same_self s (log e s).
Proof.
  intros He. repeat split. rewrite imports_log, He. lia.
Qed.

Lemma same_self_enter dir s : same_self s (enter dir s).
Proof.
  apply same_self_trans with (log (EvChdir dir) s).
  - now apply same_self_log.
  - now repeat split.
Qed.

Lemma keeps_self_ret {A} (a : A) : keeps_self (ret a).
Proof. intros s. apply same_self_refl. Qed.

Lemma keeps_self_raise {A} (e : exn) : keeps_self (@raise A e).
Proof. intros s. apply same_self_refl. Qed.

Lemma keeps_self_bind {A B} (m : M A) (k : A -> M B) :
  keeps_self m -> (forall a, keeps_self (k a)) -> keeps_self (bind m k).
Proof.
  intros Hm Hk s. unfold bind.
  specialize (Hm s). destruct (m s) as [s' [a | e]]; simpl in Hm.
  - eapply same_self_trans; [exact Hm | apply Hk].
  - exact Hm.
Qed.

Lemma keeps_self_try_finally {A} (body : M A) (fin : M unit) :
  keeps_self body -> keeps_self fin -> keeps_self (try_finally body fin).
Proof.
  intros Hb Hf s. unfold try_finally.
  specialize (Hb s). destruct (body s) as [s1 r]. simpl in Hb.
  specialize (Hf s1). destruct (fin s1) as [s2 [u | e]]; simpl in *;
    eapply same_self_trans; eauto.
Qed.

Lemma keeps_self_os_chdir p : keeps_self (os_chdir p).
Proof.
  intros s. unfold os_chdir. destruct (isdir p); simpl.
  - apply same_self_enter.
  - now apply same_self_log.
Qed.

Lemma keeps_self_getattr_verifierName : keeps_self getattr_verifierName.
Proof.
  intros s. unfold getattr_verifierName.
  destruct (verifierName s) eqn:E; apply same_self_refl.
Qed.

Lemma keeps_self_getattr_wrappedTool : keeps_self getattr_wrappedTool.
Proof.
  intros s. unfold getattr_wrappedTool.
  destruct (wrappedTool s) eqn:E; apply same_self_refl.
Qed.

Lemma keeps_self_hasattr_wrappedTool : keeps_self hasattr_wrappedTool.
Proof. intros s. apply same_self_refl. Qed.

Lemma keeps_self_dict_getitem d k : keeps_self (dict_getitem d k).
Proof.
  intros s. unfold dict_getitem.
  destruct (dict_get d k); apply same_self_refl.
Qed.

Lemma keeps_self_os_path_join a b : keeps_self (os_path_join a b).
Proof. intros s. destruct b; apply same_self_refl. Qed.

Lemma keeps_self_os_path_relpath p : keeps_self (os_path_relpath p).
Proof. intros s. apply same_self_refl. Qed.

Lemma keeps_self_call_executable t : keeps_self (call_executable t).
Proof. intros s. now apply same_self_log. Qed.

Lemma keeps_self_call_cmdline t exe opts tasks prop rl :
  keeps_self (call_cmdline t exe opts tasks prop rl).
Proof. intros s. now apply same_self_log. Qed.

Lemma keeps_self_call_determine_result t rc rs out to :
  keeps_self (call_determine_result t rc rs out to).
Proof. intros s. now apply same_self_log. Qed.

Create HintDb keeps.

#[local] Hint Resolve keeps_self_ret keeps_self_raise keeps_self_os_chdir
  keeps_self_getattr_verifierName keeps_self_getattr_wrappedTool
  keeps_self_hasattr_wrappedTool keeps_self_dict_getitem
  keeps_self_os_path_join keeps_self_os_path_relpath
  keeps_self_call_executable keeps_self_call_cmdline
  keeps_self_call_determine_result : keeps.

Ltac keeps :=
  repeat first
    [ apply keeps_self_bind; [| intros ?]
    | apply keeps_self_try_finally
    | solve [auto with keeps] ].

Lemma keeps_self_in_tool_directory {A} (body : string -> M A) :
  (forall d, keeps_self (body d)) -> keeps_self (_in_tool_directory body).
Proof.
  intros Hb. unfold _in_tool_directory, with_lock, os_getcwd.
  apply keeps_self_bind; [intros s; apply same_self_refl | intros old].
  keeps.
Qed.

Lemma keeps_self_determine_result rc rs out to :
  keeps_self (determine_result rc rs out to).
Proof.
  unfold determine_result.
  apply keeps_self_bind; [auto with keeps | intros has].
  destruct has; simpl; [| auto with keeps].
  apply keeps_self_in_tool_directory. intros _. keeps.
Qed.

Lemma keeps_self_build_cmdline exe kn opts tasks prop rl :
  keeps_self (build_cmdline exe kn opts tasks prop rl).
Proof.
  unfold build_cmdline.
  apply keeps_self_bind; [| intros w; keeps].
  apply keeps_self_in_tool_directory. intros old. keeps.
Qed.

(** ** The working directory *)

(** Whatever the body does, the [finally] clause puts the working
    directory back. *)
Lemma in_tool_directory_restores {A} (body : string -> M A) s :
  isdir (cwd s) = true -> cwd (fst (_in_tool_directory body s)) = cwd s.
Proof.
  intros Hd. unfold _in_tool_directory, with_lock, bind, os_getcwd, try_finally.
  match goal with
  | |- context [let (_, _) := ?b in _] => destruct b as [s1 r]
  end.
  unfold os_chdir. rewrite Hd. reflexivity.
Qed.

Lemma resolve_wrappedTool_cwd v s :
  cwd (fst (resolve_wrappedTool v s)) = cwd s.
Proof.
  unfold resolve_wrappedTool, with_lock, bind, hasattr_wrappedTool.
  destruct (wrappedTool s) as [t |]; simpl.
  - unfold getattr_verifierName. destruct (verifierName s) as [r |]; simpl; trivial.
    now destruct (String.eqb v r).
  - now destruct (import_Tool _).
Qed.

Lemma build_cmdline_cwd exe kn opts tasks prop rl s :
  isdir (cwd s) = true ->
  cwd (fst (build_cmdline exe kn opts tasks prop rl s)) = cwd s.
Proof.
  intros Hd. unfold build_cmdline, bind.
  match goal with
  | |- context [_in_tool_directory ?b s] =>
      pose proof (in_tool_directory_restores b s Hd) as Hr;
      destruct (_in_tool_directory b s) as [s1 [w | e]]
  end; simpl in Hr; trivial.
  unfold dict_getitem. now destruct (dict_get _ _).
Qed.

Lemma cmdline_cwd exe opts tasks prop rl s :
  isdir (cwd s) = true ->
  cwd (fst (cmdline exe opts tasks prop rl s)) = cwd s.
Proof.
  intros Hd. unfold cmdline, bind at 1, parse_options.
  destruct (parse_known_args opts) as [[kn rest] |]; simpl; trivial.
  unfold bind at 1.
  pose proof (resolve_wrappedTool_cwd (lower (metaval kn)) s) as Hr.
  destruct (resolve_wrappedTool _ s) as [s1 [u | e]]; simpl in Hr; trivial.
  unfold bind, hasattr_wrappedTool.
  destruct (wrappedTool s1); simpl; trivial.
  rewrite <- Hr in Hd. rewrite <- Hr. now apply build_cmdline_cwd.
Qed.

Lemma determine_result_cwd rc rs out to s :
  isdir (cwd s) = true ->
  cwd (fst (determine_result rc rs out to s)) = cwd s.
Proof.
  intros Hd. unfold determine_result, bind at 1, hasattr_wrappedTool.
  destruct (wrappedTool s); simpl; trivial.
  now apply in_tool_directory_restores.
Qed.

(** C3.  After any call of [cmdline] or [determine_result] the working
    directory is the one the call started in, whatever way the call
    ends: the statement is about the state the call leaves, be its
    outcome a return, a [SystemExit] or another exception.  The working
    directory the call starts in is a directory of the file system. *)
Theorem working_directory_restored (c : call) (s : state) :
  isdir (cwd s) = true -> cwd (step c s) = cwd s.
Proof.
  intros Hd. destruct c as [exe opts tasks prop rl | rc rs out to]; simpl.
  - now apply cmdline_cwd.
  - now apply determine_result_cwd.
Qed.

(** ** The resolution block *)

Lemma resolve_unresolved v s :
  wrappedTool s = None ->
  resolve_wrappedTool v s =
    let m := module_name v in
    let s1 := log (EvImport m) (set_verifierName v s) in
    match import_Tool m with
    | Returned t => (set_wrappedTool t s1, Returned tt)
    | Raised e => (s1, Raised e)
    end.
Proof.
  intros Hw. unfold resolve_wrappedTool, with_lock, bind, hasattr_wrappedTool.
  rewrite Hw. simpl. unfold import_wrapped.
  now destruct (import_Tool _).
Qed.

Lemma resolve_resolved v s t r :
  wrappedTool s = Some t -> verifierName s = Some r ->
  resolve_wrappedTool v s =
    if String.eqb v r then (s, Returned tt) else (s, Raised mixed_tools).
Proof.
  intros Hw Hv. unfold resolve_wrappedTool, with_lock, bind, hasattr_wrappedTool.
  rewrite Hw. simpl. unfold getattr_verifierName. rewrite Hv.
  now destruct (String.eqb v r).
Qed.

(** Where [resolve_wrappedTool] returns, the wrapped tool is set and the
    recorded identifier is the requested one. *)
Lemma resolve_returned v s s' u :
  resolve_wrappedTool v s = (s', Returned u) ->
  exists t, wrappedTool s' = Some t /\ verifierName s' = Some v
            /\ cwd s' = cwd s
            /\ match wrappedTool s with
               | Some t0 => t = t0 /\ s' = s
               | None =>
                   import_Tool (module_name v) = Returned t
                   /\ events s' = events s ++ [EvImport (module_name v)]
               end.
Proof.
  intros H. destruct (wrappedTool s) as [t0 |] eqn:Hw.
  - destruct (verifierName s) as [r |] eqn:Hv.
    + rewrite (resolve_resolved v s t0 r Hw Hv) in H.
      destruct (String.eqb v r) eqn:E; [| discriminate].
      apply String.eqb_eq in E. subst r.
      injection H as <- _. exists t0. now rewrite Hw, Hv.
    + unfold resolve_wrappedTool, with_lock, bind, hasattr_wrappedTool in H.
      rewrite Hw in H. simpl in H.
      unfold getattr_verifierName in H. rewrite Hv in H. discriminate.
  - rewrite (resolve_unresolved v s Hw) in H. simpl in H.
    destruct (import_Tool _) as [t | e] eqn:Hi; [| discriminate].
    injection H as <- _. exists t. simpl. auto.
Qed.

(** ** Entering the tool directory *)

Lemma in_tool_directory_enter {A} (body : string -> M A) s v dir :
  verifierName s = Some v ->
  dict_get TOOL_TO_PATH_MAP v = Some dir ->
  isdir (path_join (cwd s) dir) = true ->
  isdir (cwd s) = true ->
  _in_tool_directory body s =
    let (s1, r) := body (cwd s) (enter (path_join (cwd s) dir) s) in
    (enter (cwd s) s1, r).
Proof.
  intros Hv Hk Hd Hc.
  unfold _in_tool_directory, with_lock, bind at 1, os_getcwd, try_finally.
  unfold bind at 1, getattr_verifierName. rewrite Hv.
  unfold bind at 1, dict_getitem. rewrite Hk. unfold ret.
  unfold bind at 1, os_chdir at 1. rewrite Hd. fold (enter (path_join (cwd s) dir) s).
  destruct (body (cwd s) _) as [s1 r].
  unfold os_chdir. rewrite Hc. reflexivity.
Qed.

Lemma in_tool_directory_key_error {A} (body : string -> M A) s v :
  verifierName s = Some v ->
  dict_get TOOL_TO_PATH_MAP v = None ->
  isdir (cwd s) = true ->
  _in_tool_directory body s = (enter (cwd s) s, Raised (KeyError v)).
Proof.
  intros Hv Hk Hc.
  unfold _in_tool_directory, with_lock, bind at 1, os_getcwd, try_finally.
  unfold bind at 1, getattr_verifierName. rewrite Hv.
  unfold bind at 1, dict_getitem. rewrite Hk. unfold raise.
  unfold os_chdir. rewrite Hc. reflexivity.
Qed.

(** When [_in_tool_directory] returns, it entered the directory of the
    recorded identifier, ran the body there and came back. *)
Lemma in_tool_directory_returned {A} (body : string -> M A) s s' (a : A) :
  _in_tool_directory body s = (s', Returned a) ->
  exists v dir s1,
    verifierName s = Some v
    /\ dict_get TOOL_TO_PATH_MAP v = Some dir
    /\ isdir (path_join (cwd s) dir) = true
    /\ isdir (cwd s) = true
    /\ body (cwd s) (enter (path_join (cwd s) dir) s) = (s1, Returned a)
    /\ s' = enter (cwd s) s1.
Proof.
  unfold _in_tool_directory, with_lock, bind at 1, os_getcwd, try_finally.
  unfold bind at 1, getattr_verifierName.
  destruct (verifierName s) as [v |] eqn:Hv.
  2:{ unfold os_chdir. destruct (isdir (cwd s)); discriminate. }
  unfold bind at 1, dict_getitem.
  destruct (dict_get TOOL_TO_PATH_MAP v) as [dir |] eqn:Hk.
  2:{ unfold raise, os_chdir. destruct (isdir (cwd s)); discriminate. }
  unfold ret, bind at 1, os_chdir at 1.
  destruct (isdir (path_join (cwd s) dir)) eqn:Hd.
  2:{ unfold os_chdir. simpl. destruct (isdir (cwd s)); discriminate. }
  fold (enter (path_join (cwd s) dir) s).
  destruct (body (cwd s) _) as [s1 r] eqn:Hb.
  unfold os_chdir. destruct (isdir (cwd s)) eqn:Hc; [| discriminate].
  intros H. injection H as <- ->.
  exists v, dir, s1. auto 10.
Qed.

(** ** A call of [cmdline] that returns *)

Lemma build_cmdline_returned exe kn rest tasks prop rl s s' argv t :
  wrappedTool s = Some t ->
  build_cmdline exe kn rest tasks prop rl s = (s', Returned argv) ->
  exists v dir dir' p exe' sub,
    verifierName s = Some v
    /\ dict_get TOOL_TO_PATH_MAP v = Some dir
    /\ dict_get TOOL_TO_PATH_MAP (lower (metaval kn)) = Some dir'
    /\ prop = Some p
    /\ isdir (path_join (cwd s) dir) = true
    /\ tool_executable t (path_join (cwd s) dir) = Returned exe'
    /\ tool_cmdline t (path_join (cwd s) dir) exe' rest
         [relpath (path_join (cwd s) dir) (path_join (cwd s) "output/ARG.c")]
         (relpath (path_join (cwd s) dir) (path_join (cwd s) p)) rl
       = Returned sub
    /\ events s' = events s ++ delegation (cwd s) dir exe' rest p rl
    /\ wrappedTool s' = Some t /\ verifierName s' = Some v /\ cwd s' = cwd s
    /\ argv = [exe; "--verifier"; dir'; "--witness"; metavalWitness kn]
                ++ optional_argument "--additionalPATH" (metavalAdditionalPATH kn)
                ++ optional_argument "--witnessType" (metavalWitnessType kn)
                ++ tasks ++ ["--"] ++ sub.
Proof.
  intros Hw H. unfold build_cmdline, bind at 1 in H.
  destruct (_in_tool_directory _ s) as [s1 [sub | e]] eqn:Hin; [| discriminate].
  apply in_tool_directory_returned in Hin.
  destruct Hin as (v & dir & s2 & Hv & Hk & Hd & Hc & Hb & ->).
  unfold bind at 1, getattr_wrappedTool in Hb. simpl in Hb. rewrite Hw in Hb.
  unfold bind at 1, call_executable in Hb. simpl in Hb.
  destruct (tool_executable t (path_join (cwd s) dir)) as [exe' | e] eqn:He;
    [| discriminate].
  destruct prop as [p |]; [| discriminate].
  unfold bind, os_path_join, os_path_relpath, ret, call_cmdline in Hb.
  simpl in Hb.
  destruct (tool_cmdline t _ _ _ _ _ _) as [sub' | e] eqn:Hc'; [| discriminate].
  injection Hb as <- <-.
  unfold bind, dict_getitem in H.
  destruct (dict_get TOOL_TO_PATH_MAP (lower (metaval kn))) as [dir' |] eqn:Hk';
    [| discriminate].
  injection H as <- <-.
  exists v, dir, dir', p, exe', sub'. simpl.
  rewrite <- !app_assoc. simpl.
  repeat split; auto.
Qed.

Lemma cmdline_returned exe opts tasks prop rl s s' argv :
  cmdline exe opts tasks prop rl s = (s', Returned argv) ->
  exists kn rest t dir p exe' sub,
    parse_known_args opts = Some (kn, rest)
    /\ prop = Some p
    /\ wrappedTool s' = Some t
    /\ verifierName s' = Some (lower (metaval kn))
    /\ dict_get TOOL_TO_PATH_MAP (lower (metaval kn)) = Some dir
    /\ isdir (path_join (cwd s) dir) = true
    /\ tool_executable t (path_join (cwd s) dir) = Returned exe'
    /\ tool_cmdline t (path_join (cwd s) dir) exe' rest
         [relpath (path_join (cwd s) dir) (path_join (cwd s) "output/ARG.c")]
         (relpath (path_join (cwd s) dir) (path_join (cwd s) p)) rl
       = Returned sub
    /\ events s' =
         events s
           ++ match wrappedTool s with
              | Some _ => []
              | None => [EvImport (module_name (lower (metaval kn)))]
              end
           ++ delegation (cwd s) dir exe' rest p rl
    /\ cwd s' = cwd s
    /\ argv = [exe; "--verifier"; dir; "--witness"; metavalWitness kn]
                ++ optional_argument "--additionalPATH" (metavalAdditionalPATH kn)
                ++ optional_argument "--witnessType" (metavalWitnessType kn)
                ++ tasks ++ ["--"] ++ sub.
Proof.
  intros H. unfold cmdline, bind at 1, parse_options in H.
  destruct (parse_known_args opts) as [[kn rest] |] eqn:Hp; [| discriminate].
  simpl in H. unfold bind at 1 in H.
  destruct (resolve_wrappedTool _ s) as [s1 [u | e]] eqn:Hr; [| discriminate].
  apply resolve_returned in Hr. destruct Hr as (t & Hw1 & Hv1 & Hc1 & Hcase).
  unfold bind, hasattr_wrappedTool in H. rewrite Hw1 in H.
  apply (build_cmdline_returned _ _ _ _ _ _ _ _ _ t Hw1) in H.
  destruct H as (v & dir & dir' & p & exe' & sub & Hv & Hk & Hk' & -> & Hd
                 & He & Hc & Hev & Hw' & Hv' & Hcwd & ->).
  rewrite Hv1 in Hv. injection Hv as <-.
  rewrite Hk in Hk'. injection Hk' as <-.
  rewrite Hc1 in *.
  exists kn, rest, t, dir, p, exe', sub.
  repeat split; auto.
  rewrite Hev. destruct (wrappedTool s) as [t0 |].
  - destruct Hcase as [_ ->]. reflexivity.
  - destruct Hcase as [_ ->]. now rewrite <- app_assoc.
Qed.

(** ** The test after the resolution block *)

Lemma cmdline_after_resolution exe opts tasks prop rl s kn rest s1 u :
  parse_known_args opts = Some (kn, rest) ->
  resolve_wrappedTool (lower (metaval kn)) s = (s1, Returned u) ->
  cmdline exe opts tasks prop rl s
  = build_cmdline exe kn rest tasks prop rl s1.
Proof.
  intros Hp Hr. unfold cmdline, bind at 1, parse_options. rewrite Hp. simpl.
  unfold bind at 1. rewrite Hr.
  apply resolve_returned in Hr. destruct Hr as (t & Hw & _).
  unfold bind, hasattr_wrappedTool. now rewrite Hw.
Qed.

Lemma cmdline_resolution_raised exe opts tasks prop rl s kn rest s1 e :
  parse_known_args opts = Some (kn, rest) ->
  resolve_wrappedTool (lower (metaval kn)) s = (s1, Raised e) ->
  cmdline exe opts tasks prop rl s = (s1, Raised e).
Proof.
  intros Hp Hr. unfold cmdline, bind at 1, parse_options. rewrite Hp. simpl.
  unfold bind at 1. now rewrite Hr.
Qed.

Lemma cmdline_usage_error exe opts tasks prop rl s :
  parse_known_args opts = None ->
  cmdline exe opts tasks prop rl s = (s, Raised (SystemExit (ExitStatus 2))).
Proof.
  intros Hp. unfold cmdline, bind at 1, parse_options. now rewrite Hp.
Qed.

(** The test after the resolution block never fails: [cmdline] is the
    program without it. *)
Lemma cmdline_else_branch_dead exe opts tasks prop rl s :
  cmdline exe opts tasks prop rl s = cmdline_unchecked exe opts tasks prop rl s.
Proof.
  unfold cmdline_unchecked, bind at 1, parse_options.
  destruct (parse_known_args opts) as [[kn rest] |] eqn:Hp.
  - simpl. unfold bind at 1.
    destruct (resolve_wrappedTool _ s) as [s1 [u | e]] eqn:Hr.
    + eapply cmdline_after_resolution; eauto.
    + eapply cmdline_resolution_raised; eauto.
  - now apply cmdline_usage_error.
Qed.

(** ** Calls on a resolved instance *)

Lemma cmdline_mixed exe opts tasks prop rl s t v kn rest :
  wrappedTool s = Some t -> verifierName s = Some v ->
  parse_known_args opts = Some (kn, rest) ->
  lower (metaval kn) <> v ->
  cmdline exe opts tasks prop rl s = (s, Raised mixed_tools).
Proof.
  intros Hw Hv Hp Hne.
  apply cmdline_resolution_raised with (kn := kn) (rest := rest); trivial.
  rewrite (resolve_resolved _ s t v Hw Hv).
  destruct (String.eqb _ v) eqn:E; trivial.
  apply String.eqb_eq in E. contradiction.
Qed.

Lemma cmdline_same exe opts tasks prop rl s t kn rest :
  wrappedTool s = Some t -> verifierName s = Some (lower (metaval kn)) ->
  parse_known_args opts = Some (kn, rest) ->
  cmdline exe opts tasks prop rl s
  = build_cmdline exe kn rest tasks prop rl s.
Proof.
  intros Hw Hv Hp.
  apply cmdline_after_resolution with (u := tt); trivial.
  rewrite (resolve_resolved _ s t _ Hw Hv). now rewrite String.eqb_refl.
Qed.

Lemma cmdline_resolved_keeps exe opts tasks prop rl s t v :
  wrappedTool s = Some t -> verifierName s = Some v ->
  same_self s (fst (cmdline exe opts tasks prop rl s)).
Proof.
  intros Hw Hv.
  destruct (parse_known_args opts) as [[kn rest] |] eqn:Hp.
  - destruct (String.eqb (lower (metaval kn)) v) eqn:E.
    + apply String.eqb_eq in E. subst v.
      rewrite (cmdline_same _ _ _ _ _ _ t kn rest Hw Hv Hp).
      apply keeps_self_build_cmdline.
    + apply String.eqb_neq in E.
      rewrite (cmdline_mixed _ _ _ _ _ _ t v kn rest Hw Hv Hp E).
      apply same_self_refl.
  - rewrite cmdline_usage_error by trivial. apply same_self_refl.
Qed.

Lemma step_resolved_keeps c s t v :
  wrappedTool s = Some t -> verifierName s = Some v ->
  same_self s (step c s).
Proof.
  intros Hw Hv. destruct c; simpl.
  - eapply cmdline_resolved_keeps; eauto.
  - apply keeps_self_determine_result.
Qed.

Lemma run_resolved_keeps cs : forall s t v,
  wrappedTool s = Some t -> verifierName s = Some v ->
  same_self s (run cs s).
Proof.
  induction cs as [| c cs IH]; intros s t v Hw Hv; simpl.
  - apply same_self_refl.
  - pose proof (step_resolved_keeps c s t v Hw Hv) as Hs.
    eapply same_self_trans; [exact Hs |].
    destruct Hs as (Hv' & Hw' & _).
    apply (IH (step c s) t v); congruence.
Qed.

Lemma run_cwd cs : forall s,
  isdir (cwd s) = true -> cwd (run cs s) = cwd s.
Proof.
  induction cs as [| c cs IH]; intros s Hd; simpl; trivial.
  assert (Hc : cwd (step c s) = cwd s).
  { destruct c; simpl; [now apply cmdline_cwd | now apply determine_result_cwd]. }
  rewrite IH; rewrite Hc; trivial.
Qed.

(** ** The first call *)

Lemma cmdline_first exe opts tasks prop rl s kn rest t :
  parse_known_args opts = Some (kn, rest) ->
  wrappedTool s = None ->
  import_Tool (module_name (lower (metaval kn))) = Returned t ->
  let s1 := fst (cmdline exe opts tasks prop rl s) in
  wrappedTool s1 = Some t
  /\ verifierName s1 = Some (lower (metaval kn))
  /\ imports s1 = S (imports s).
Proof.
  intros Hp Hw Hi.
  pose proof (resolve_unresolved (lower (metaval kn)) s Hw) as Hr.
  simpl in Hr. rewrite Hi in Hr.
  rewrite (cmdline_after_resolution _ _ _ _ _ _ _ _ _ _ Hp Hr).
  match goal with
  | |- context [build_cmdline ?a ?b ?c ?d ?e ?f ?s0] =>
      destruct (keeps_self_build_cmdline a b c d e f s0) as (Hv' & Hw' & Hi')
  end.
  simpl. rewrite Hv', Hw', Hi'.
  repeat split.
  change (imports (log (EvImport (module_name (lower (metaval kn))))
                     (set_verifierName (lower (metaval kn)) s))
          = S (imports s)).
  rewrite imports_log. simpl. unfold imports. simpl. lia.
Qed.

Lemma cmdline_load_failure exe opts tasks prop rl s kn rest e :
  parse_known_args opts = Some (kn, rest) ->
  wrappedTool s = None ->
  import_Tool (module_name (lower (metaval kn))) = Raised e ->
  cmdline exe opts tasks prop rl s
  = (log (EvImport (module_name (lower (metaval kn))))
       (set_verifierName (lower (metaval kn)) s),
     Raised e).
Proof.
  intros Hp Hw Hi.
  apply cmdline_resolution_raised with (kn := kn) (rest := rest); trivial.
  rewrite (resolve_unresolved _ s Hw). simpl. now rewrite Hi.
Qed.

(** ** Identifiers without a directory *)

Lemma build_cmdline_key_error exe kn rest tasks prop rl s v :
  verifierName s = Some v ->
  dict_get TOOL_TO_PATH_MAP v = None ->
  isdir (cwd s) = true ->
  build_cmdline exe kn rest tasks prop rl s
  = (enter (cwd s) s, Raised (KeyError v)).
Proof.
  intros Hv Hk Hd. unfold build_cmdline, bind at 1.
  now rewrite (in_tool_directory_key_error _ s v Hv Hk Hd).
Qed.

Lemma determine_result_key_error rc rs out to s t v :
  wrappedTool s = Some t ->
  verifierName s = Some v ->
  dict_get TOOL_TO_PATH_MAP v = None ->
  isdir (cwd s) = true ->
  determine_result rc rs out to s = (enter (cwd s) s, Raised (KeyError v)).
Proof.
  intros Hw Hv Hk Hd. unfold determine_result, bind at 1, hasattr_wrappedTool.
  rewrite Hw. simpl.
  now rewrite (in_tool_directory_key_error _ s v Hv Hk Hd).
Qed.

Lemma optional_argument_when_given flag value :
  optional_argument flag value = when_given flag (nonempty value).
Proof. now destruct value as [[| c v] |]. Qed.

(** * The claims *)

(** C1 (as amended).  A call of [cmdline] that returns gives the launcher,
    ["--verifier"], the directory that [TOOL_TO_PATH_MAP] has for the
    lowercased identifier, ["--witness"] and the witness path, then
    ["--additionalPATH"] with its path when [--metavalAdditionalPATH] was
    given a value other than the empty string, then ["--witnessType"]
    with its tag when [--metavalWitnessType] was given a value other than
    the empty string, then the tasks, ["--"], and the argument vector
    that the [cmdline] of the wrapped tool returned to this call: the one
    it gives inside the tool directory for its own executable, the
    options left over, the task [output/ARG.c] and the property file. *)
Theorem cmdline_argument_vector exe opts tasks prop rl s s' argv :
  cmdline exe opts tasks prop rl s = (s', Returned argv) ->
  exists kn rest dir t p exe' sub,
    parse_known_args opts = Some (kn, rest)
    /\ prop = Some p
    /\ dict_get TOOL_TO_PATH_MAP (lower (metaval kn)) = Some dir
    /\ wrappedTool s' = Some t
    /\ tool_executable t (path_join (cwd s) dir) = Returned exe'
    /\ tool_cmdline t (path_join (cwd s) dir) exe' rest
         [relpath (path_join (cwd s) dir) (path_join (cwd s) "output/ARG.c")]
         (relpath (path_join (cwd s) dir) (path_join (cwd s) p)) rl
       = Returned sub
    /\ argv = argument_vector exe dir (metavalWitness kn)
                (nonempty (metavalAdditionalPATH kn))
                (nonempty (metavalWitnessType kn)) tasks sub.
Proof.
  intros H. apply cmdline_returned in H.
  destruct H as (kn & rest & t & dir & p & exe' & sub & Hp & Hprop & Hw & _ & Hk
                 & _ & He & Hc & _ & _ & ->).
  exists kn, rest, dir, t, p, exe', sub. repeat split; trivial.
  unfold argument_vector. now rewrite !optional_argument_when_given.
Qed.

(** C2 (as amended).  Once a call of [cmdline] has resolved the wrapped
    tool, the recorded identifier and the wrapped tool stay what they
    are through every later series of calls, and every later call of
    [cmdline] whose lowercased identifier differs from the recorded one
    raises [SystemExit] with the mixed-tools message and leaves the
    state as it was: nothing is loaded, no directory is entered and the
    wrapped tool is not called. *)
Theorem resolved_identifier_never_changes s t v cs :
  wrappedTool s = Some t -> verifierName s = Some v ->
  let s' := run cs s in
  wrappedTool s' = Some t
  /\ verifierName s' = Some v
  /\ forall exe opts tasks prop rl kn rest,
       parse_known_args opts = Some (kn, rest) ->
       lower (metaval kn) <> v ->
       cmdline exe opts tasks prop rl s' = (s', Raised mixed_tools).
Proof.
  intros Hw Hv s'.
  destruct (run_resolved_keeps cs s t v Hw Hv) as (Hv' & Hw' & _).
  fold s' in Hv', Hw'. rewrite Hw in Hw'. rewrite Hv in Hv'.
  repeat split; trivial.
  intros exe opts tasks prop rl kn rest Hp Hne.
  now apply cmdline_mixed with (t := t) (v := v) (kn := kn) (rest := rest).
Qed.

(** C4 (as amended).  On an instance without a wrapped tool,
    [determine_result] returns ["METAVAL ERROR"] and leaves the state
    untouched: no directory is changed and nothing is raised.  On an
    instance with a wrapped tool whose recorded identifier is a key of
    [TOOL_TO_PATH_MAP], when the working directory and the directory of
    the tool in it exist, the outcome is the outcome of the wrapped
    tool's [determine_result], called once, inside the tool directory,
    with the same four arguments. *)
Theorem determine_result_delegates rc rs out to s :
  match wrappedTool s with
  | None => determine_result rc rs out to s = (s, Returned "METAVAL ERROR")
  | Some t =>
      forall v dir,
        verifierName s = Some v ->
        dict_get TOOL_TO_PATH_MAP v = Some dir ->
        isdir (path_join (cwd s) dir) = true ->
        isdir (cwd s) = true ->
        let tooldir := path_join (cwd s) dir in
        snd (determine_result rc rs out to s)
        = tool_determine_result t tooldir rc rs out to
        /\ events (fst (determine_result rc rs out to s))
           = events s ++ [EvChdir tooldir;
                          EvDetermineResult tooldir rc rs out to;
                          EvChdir (cwd s)]
  end.
Proof.
  destruct (wrappedTool s) as [t |] eqn:Hw.
  - intros v dir Hv Hk Hd Hc tooldir.
    assert (E : determine_result rc rs out to s
                = (enter (cwd s)
                     (log (EvDetermineResult tooldir rc rs out to)
                        (enter tooldir s)),
                   tool_determine_result t tooldir rc rs out to)).
    { unfold determine_result, bind at 1, hasattr_wrappedTool.
      rewrite Hw. simpl.
      rewrite (in_tool_directory_enter _ s v dir Hv Hk Hd Hc).
      unfold bind, getattr_wrappedTool, call_determine_result. simpl.
      now rewrite Hw. }
    rewrite E. simpl. split; trivial.
    now rewrite <- !app_assoc.
  - unfold determine_result, bind, hasattr_wrappedTool. now rewrite Hw.
Qed.

(** C6.  When a call of [cmdline] returns, the adapter has entered the
    directory of the wrapped tool, asked the wrapped tool for its
    executable there, and called its [cmdline] there with that
    executable, the options that the parser left over, the one task
    [output/ARG.c] of the original working directory, the property file
    taken from the original working directory, and the resource limits
    it was given; then it has gone back.  Before that, it has at most
    loaded the wrapped tool. *)
Theorem wrapped_cmdline_arguments exe opts tasks prop rl s s' argv :
  cmdline exe opts tasks prop rl s = (s', Returned argv) ->
  exists kn rest t dir p exe' loaded,
    parse_known_args opts = Some (kn, rest)
    /\ prop = Some p
    /\ wrappedTool s' = Some t
    /\ dict_get TOOL_TO_PATH_MAP (lower (metaval kn)) = Some dir
    /\ let tooldir := path_join (cwd s) dir in
       tool_executable t tooldir = Returned exe'
       /\ Forall (fun e => is_import e = true) loaded
       /\ events s' =
            events s ++ loaded
              ++ [ EvChdir tooldir;
                   EvExecutable tooldir;
                   EvCmdline tooldir exe' rest
                     [relpath tooldir (path_join (cwd s) "output/ARG.c")]
                     (relpath tooldir (path_join (cwd s) p))
                     rl;
                   EvChdir (cwd s) ].
Proof.
  intros H. apply cmdline_returned in H.
  destruct H as (kn & rest & t & dir & p & exe' & sub & Hp & -> & Hw & _ & Hk
                 & _ & He & _ & Hev & _ & _).
  exists kn, rest, t, dir, p, exe'.
  exists (match wrappedTool s with
          | Some _ => []
          | None => [EvImport (module_name (lower (metaval kn)))]
          end).
  repeat split; trivial.
  destruct (wrappedTool s); repeat constructor.
Qed.

(** C7.  A call of [cmdline] without a property file never returns an
    argument vector: it raises. *)
Theorem cmdline_without_propertyfile_raises exe opts tasks rl s :
  exists e, snd (cmdline exe opts tasks None rl s) = Raised e.
Proof.
  destruct (cmdline exe opts tasks None rl s) as [s' [argv | e]] eqn:H.
  - apply cmdline_returned in H.
    destruct H as (kn & rest & t & dir & p & exe' & sub & _ & Hnone & _).
    discriminate.
  - now exists e.
Qed.

(** C8 (as amended).  When the module of the identifier can be loaded,
    the first call of [cmdline] that carries the identifier on an
    unresolved instance loads and constructs the wrapped tool, once;
    after every series of later calls the wrapped tool is still that
    object and nothing more has been loaded. *)
Theorem wrapped_tool_constructed_once v t c cs s :
  import_Tool (module_name v) = Returned t ->
  wrappedTool s = None ->
  requests c v ->
  Forall (fun c' => requests c' v) cs ->
  let s1 := step c s in
  wrappedTool s1 = Some t
  /\ imports s1 = S (imports s)
  /\ wrappedTool (run cs s1) = Some t
  /\ imports (run cs s1) = imports s1.
Proof.
  intros Hi Hw Hc _ s1.
  destruct c as [exe opts tasks prop rl | rc rs out to]; [| contradiction].
  destruct Hc as (kn & rest & Hp & <-).
  destruct (cmdline_first exe opts tasks prop rl s kn rest t Hp Hw Hi)
    as (Hw1 & Hv1 & Hi1).
  change (fst (cmdline exe opts tasks prop rl s)) with s1 in Hw1, Hv1, Hi1.
  destruct (run_resolved_keeps cs s1 t _ Hw1 Hv1) as (_ & Hw2 & Hi2).
  repeat split; trivial. congruence.
Qed.

(** C9.  Where the resolution block returns, the wrapped tool is set, so
    the test that follows takes its first branch and the exit with
    ["ERROR: Could not find wrapped tool"] is not reached. *)
Theorem wrapped_tool_set_after_resolution v s s' u :
  resolve_wrappedTool v s = (s', Returned u) ->
  (exists t, wrappedTool s' = Some t)
  /\ forall (A : Type) (found : M A),
       (has <- hasattr_wrappedTool ;;
        if has then found else raise could_not_find) s'
       = found s'.
Proof.
  intros H. apply resolve_returned in H. destruct H as (t & Hw & _).
  split; [now exists t |].
  intros A found. unfold bind, hasattr_wrappedTool. now rewrite Hw.
Qed.

(** C10 (as amended).  For an identifier whose module can be loaded and
    that is no key of [TOOL_TO_PATH_MAP], the first call of [cmdline]
    records the identifier and the wrapped tool and raises [KeyError];
    the instance stays resolved to that identifier, and after every
    series of later calls each call of [determine_result] and each call
    of [cmdline] that carries the same identifier raises the same
    [KeyError]. *)
Theorem unmapped_identifier_key_error exe opts tasks prop rl kn rest t s cs :
  parse_known_args opts = Some (kn, rest) ->
  import_Tool (module_name (lower (metaval kn))) = Returned t ->
  dict_get TOOL_TO_PATH_MAP (lower (metaval kn)) = None ->
  wrappedTool s = None ->
  isdir (cwd s) = true ->
  let v := lower (metaval kn) in
  let s1 := fst (cmdline exe opts tasks prop rl s) in
  let s2 := run cs s1 in
  snd (cmdline exe opts tasks prop rl s) = Raised (KeyError v)
  /\ wrappedTool s1 = Some t /\ verifierName s1 = Some v
  /\ wrappedTool s2 = Some t /\ verifierName s2 = Some v
  /\ (forall rc rs out to,
        snd (determine_result rc rs out to s2) = Raised (KeyError v))
  /\ (forall exe' opts' tasks' prop' rl' kn' rest',
        parse_known_args opts' = Some (kn', rest') ->
        lower (metaval kn') = v ->
        snd (cmdline exe' opts' tasks' prop' rl' s2) = Raised (KeyError v)).
Proof.
  intros Hp Hi Hk Hw Hd v s1 s2.
  destruct (cmdline_first exe opts tasks prop rl s kn rest t Hp Hw Hi)
    as (Hw1 & Hv1 & _).
  fold s1 in Hw1, Hv1. fold v in Hv1.
  assert (Hd1 : isdir (cwd s1) = true).
  { unfold s1. now rewrite cmdline_cwd. }
  destruct (run_resolved_keeps cs s1 t v Hw1 Hv1) as (Hv2 & Hw2 & _).
  fold s2 in Hv2, Hw2. rewrite Hw1 in Hw2. rewrite Hv1 in Hv2.
  assert (Hd2 : isdir (cwd s2) = true).
  { unfold s2. now rewrite run_cwd. }
  repeat split; trivial.
  - pose proof (resolve_unresolved v s Hw) as Hr. simpl in Hr.
    unfold v in Hr at 2. rewrite Hi in Hr.
    rewrite (cmdline_after_resolution _ _ _ _ _ _ _ _ _ _ Hp Hr).
    now rewrite (build_cmdline_key_error _ _ _ _ _ _ _ v).
  - intros rc rs out to.
    now rewrite (determine_result_key_error _ _ _ _ s2 t v).
  - intros exe' opts' tasks' prop' rl' kn' rest' Hp' Hv'.
    rewrite <- Hv' in Hv2.
    rewrite (cmdline_same _ _ _ _ _ s2 t kn' rest' Hw2 Hv2 Hp').
    rewrite Hv' in Hv2.
    now rewrite (build_cmdline_key_error _ _ _ _ _ _ _ v).
Qed.

End Properties.

(** * Further properties of the adapter *)

Section MoreProperties.
Context {platform : Platform}.

(** ** The first call, whether the load succeeds or not *)

Lemma cmdline_unresolved exe opts tasks prop rl s kn rest :
  parse_known_args opts = Some (kn, rest) ->
  wrappedTool s = None ->
  let s1 := fst (cmdline exe opts tasks prop rl s) in
  verifierName s1 = Some (lower (metaval kn))
  /\ wrappedTool s1
     = match import_Tool (module_name (lower (metaval kn))) with
       | Returned t => Some t
       | Raised _ => None
       end
  /\ imports s1 = S (imports s).
Proof.
  intros Hp Hw.
  destruct (import_Tool (module_name (lower (metaval kn)))) as [t | e] eqn:Hi.
  - destruct (cmdline_first exe opts tasks prop rl s kn rest t Hp Hw Hi)
      as (Hw1 & Hv1 & Hi1).
    simpl. auto.
  - rewrite (cmdline_load_failure exe opts tasks prop rl s kn rest e Hp Hw Hi).
    simpl. repeat split; trivial.
    rewrite imports_log. simpl. unfold imports. simpl. lia.
Qed.

(** A resolved instance whose identifier was lost cannot be served: the
    check of the identifier raises before anything else is done. *)
Lemma cmdline_without_identifier exe opts tasks prop rl s t kn rest :
  parse_known_args opts = Some (kn, rest) ->
  wrappedTool s = Some t -> verifierName s = None ->
  cmdline exe opts tasks prop rl s = (s, Raised (AttributeError "verifierName")).
Proof.
  intros Hp Hw Hv.
  apply cmdline_resolution_raised with (kn := kn) (rest := rest); trivial.
  unfold resolve_wrappedTool, with_lock, bind, hasattr_wrappedTool.
  rewrite Hw. simpl. unfold getattr_verifierName. now rewrite Hv.
Qed.

(** ** Invariants of an instance *)

Lemma step_consistent c s : consistent s -> consistent (step c s).
Proof.
  intros Hc. destruct c as [exe opts tasks prop rl | rc rs out to]; simpl.
  - destruct (parse_known_args opts) as [[kn rest] |] eqn:Hp.
    + destruct (wrappedTool s) as [t |] eqn:Hw.
      * destruct (Hc t Hw) as (v & Hv & Hi).
        destruct (cmdline_resolved_keeps exe opts tasks prop rl s t v Hw Hv)
          as (Hv' & Hw' & _).
        intros t' Ht'. rewrite Hw', Hw in Ht'. injection Ht' as <-.
        exists v. now rewrite Hv'.
      * destruct (cmdline_unresolved exe opts tasks prop rl s kn rest Hp Hw)
          as (Hv1 & Hw1 & _).
        intros t' Ht'. rewrite Hw1 in Ht'.
        destruct (import_Tool _) as [t | e] eqn:Hi; [| discriminate].
        injection Ht' as <-. eauto.
    + now rewrite cmdline_usage_error.
  - destruct (keeps_self_determine_result rc rs out to s) as (Hv & Hw & _).
    intros t Ht. rewrite Hw in Ht. destruct (Hc t Ht) as (v & Hv' & Hi).
    exists v. now rewrite Hv.
Qed.

Lemma run_consistent cs : forall s, consistent s -> consistent (run cs s).
Proof.
  induction cs as [| c cs IH]; intros s Hc; simpl; trivial.
  apply IH. now apply step_consistent.
Qed.

Lemma lower_ascii_idempotent c : lower_ascii (lower_ascii c) = lower_ascii c.
Proof. destruct c as [[] [] [] [] [] [] [] []]; reflexivity. Qed.

Lemma lower_idempotent s : lower (lower s) = lower s.
Proof.
  induction s as [| c s IH]; simpl; trivial.
  now rewrite lower_ascii_idempotent, IH.
Qed.

Lemma step_verifierName c s :
  verifierName (step c s) = verifierName s
  \/ exists raw, verifierName (step c s) = Some (lower raw).
Proof.
  destruct c as [exe opts tasks prop rl | rc rs out to]; simpl.
  - destruct (parse_known_args opts) as [[kn rest] |] eqn:Hp.
    + destruct (wrappedTool s) as [t |] eqn:Hw.
      * destruct (verifierName s) as [v |] eqn:Hv.
        -- left.
           destruct (cmdline_resolved_keeps exe opts tasks prop rl s t v Hw Hv)
             as (Hv' & _).
           congruence.
        -- left.
           now rewrite (cmdline_without_identifier _ _ _ _ _ s t kn rest).
      * right. exists (metaval kn).
        now destruct (cmdline_unresolved exe opts tasks prop rl s kn rest Hp Hw).
    + left. now rewrite cmdline_usage_error.
  - left. now destruct (keeps_self_determine_result rc rs out to s).
Qed.

Lemma run_verifierName cs : forall s,
  verifierName (run cs s) = verifierName s
  \/ exists raw, verifierName (run cs s) = Some (lower raw).
Proof.
  induction cs as [| c cs IH]; intros s; simpl; [now left |].
  destruct (IH (step c s)) as [E | E]; [| now right].
  rewrite E. apply step_verifierName.
Qed.

(** X1.  When the parser reports a usage error, [cmdline] exits with
    status 2 and has done nothing: nothing is recorded or loaded, no
    directory is entered, whatever the state of the instance. *)
Theorem usage_error_exits_first exe opts tasks prop rl s :
  parse_known_args opts = None ->
  cmdline exe opts tasks prop rl s = (s, Raised (SystemExit (ExitStatus 2)))
  /\ step (CallCmdline exe opts tasks prop rl) s = s.
Proof.
  intros Hp. simpl. now rewrite cmdline_usage_error.
Qed.

(** X2.  The identifier counts without its case: two option lists that
    parse to the same values up to the case of [--metaval] give the same
    outcome and the same state. *)
Theorem identifier_case_is_ignored exe opts1 opts2 tasks prop rl s kn1 kn2 rest :
  parse_known_args opts1 = Some (kn1, rest) ->
  parse_known_args opts2 = Some (kn2, rest) ->
  lower (metaval kn1) = lower (metaval kn2) ->
  metavalWitness kn1 = metavalWitness kn2 ->
  metavalAdditionalPATH kn1 = metavalAdditionalPATH kn2 ->
  metavalWitnessType kn1 = metavalWitnessType kn2 ->
  cmdline exe opts1 tasks prop rl s = cmdline exe opts2 tasks prop rl s.
Proof.
  intros H1 H2 Hl Hw Ha Ht.
  unfold cmdline, bind at 1 3, parse_options. rewrite H1, H2. simpl.
  unfold build_cmdline. now rewrite Hl, Hw, Ha, Ht.
Qed.

(** X3.  On an instance driven from its creation by any series of calls,
    a wrapped tool that is set is the one the module of the recorded
    identifier gives: the two attributes never disagree. *)
Theorem wrapped_tool_matches_identifier cs dir t :
  wrappedTool (run cs (init dir)) = Some t ->
  exists v, verifierName (run cs (init dir)) = Some v
            /\ import_Tool (module_name v) = Returned t.
Proof.
  apply (run_consistent cs (init dir)).
  intros t' H. discriminate H.
Qed.

(** X4.  The identifier that an instance records is in lower case, after
    any series of calls and also when the load that followed failed. *)
Theorem recorded_identifier_is_lowercase cs dir v :
  verifierName (run cs (init dir)) = Some v -> lower v = v.
Proof.
  intros H. destruct (run_verifierName cs (init dir)) as [E | [raw E]].
  - rewrite E in H. discriminate H.
  - rewrite E in H. injection H as <-. apply lower_idempotent.
Qed.

(** X5.  A call of [cmdline] loads a wrapped tool exactly when its options
    parse and the instance has none; every other call of [cmdline] and
    every call of [determine_result] loads nothing. *)
Theorem loads_per_call c s :
  imports (step c s)
  = match c with
    | CallCmdline _ opts _ _ _ =>
        match parse_known_args opts, wrappedTool s with
        | Some _, None => S (imports s)
        | _, _ => imports s
        end
    | CallDetermineResult _ _ _ _ => imports s
    end.
Proof.
  destruct c as [exe opts tasks prop rl | rc rs out to]; simpl.
  - destruct (parse_known_args opts) as [[kn rest] |] eqn:Hp.
    + destruct (wrappedTool s) as [t |] eqn:Hw.
      * destruct (verifierName s) as [v |] eqn:Hv.
        -- now destruct (cmdline_resolved_keeps exe opts tasks prop rl s t v Hw Hv)
             as (_ & _ & Hi).
        -- now rewrite (cmdline_without_identifier _ _ _ _ _ s t kn rest).
      * now destruct (cmdline_unresolved exe opts tasks prop rl s kn rest Hp Hw)
          as (_ & _ & Hi).
    + now rewrite cmdline_usage_error.
  - now destruct (keeps_self_determine_result rc rs out to s) as (_ & _ & Hi).
Qed.

(** ** Failures inside the tool directory *)

Lemma in_tool_directory_not_dir {A} (body : string -> M A) s v dir :
  verifierName s = Some v ->
  dict_get TOOL_TO_PATH_MAP v = Some dir ->
  isdir (path_join (cwd s) dir) = false ->
  isdir (cwd s) = true ->
  _in_tool_directory body s
  = (enter (cwd s) (log (EvChdir (path_join (cwd s) dir)) s),
     Raised (FileNotFoundError (path_join (cwd s) dir))).
Proof.
  intros Hv Hk Hd Hc.
  unfold _in_tool_directory, with_lock, bind at 1, os_getcwd, try_finally.
  unfold bind at 1, getattr_verifierName. rewrite Hv.
  unfold bind at 1, dict_getitem. rewrite Hk. unfold ret.
  unfold bind at 1, os_chdir at 1. rewrite Hd.
  unfold os_chdir. simpl. rewrite Hc. reflexivity.
Qed.

Lemma determine_result_resolved rc rs out to s t v dir :
  wrappedTool s = Some t ->
  verifierName s = Some v ->
  dict_get TOOL_TO_PATH_MAP v = Some dir ->
  isdir (path_join (cwd s) dir) = true ->
  isdir (cwd s) = true ->
  determine_result rc rs out to s
  = (enter (cwd s)
       (log (EvDetermineResult (path_join (cwd s) dir) rc rs out to)
          (enter (path_join (cwd s) dir) s)),
     tool_determine_result t (path_join (cwd s) dir) rc rs out to).
Proof.
  intros Hw Hv Hk Hd Hc.
  unfold determine_result, bind at 1, hasattr_wrappedTool.
  rewrite Hw. simpl.
  rewrite (in_tool_directory_enter _ s v dir Hv Hk Hd Hc).
  unfold bind, getattr_wrappedTool, call_determine_result. simpl.
  now rewrite Hw.
Qed.

Lemma cmdline_returned_cwd_exists exe opts tasks prop rl s s' argv :
  cmdline exe opts tasks prop rl s = (s', Returned argv) ->
  isdir (cwd s) = true.
Proof.
  intros H. rewrite cmdline_else_branch_dead in H.
  unfold cmdline_unchecked, bind at 1, parse_options in H.
  destruct (parse_known_args opts) as [[kn rest] |]; [| discriminate].
  simpl in H. unfold bind at 1 in H.
  destruct (resolve_wrappedTool _ s) as [s1 [u | e]] eqn:Hr; [| discriminate].
  apply resolve_returned in Hr. destruct Hr as (t & _ & _ & Hc & _).
  unfold build_cmdline, bind at 1 in H.
  destruct (_in_tool_directory _ s1) as [s2 [sub | e]] eqn:Hin; [| discriminate].
  apply in_tool_directory_returned in Hin.
  destruct Hin as (v & dir & s3 & _ & _ & _ & Hd & _).
  now rewrite <- Hc.
Qed.

(** X6.  On a resolved instance whose tool directory is missing,
    [determine_result] and [cmdline] for the recorded identifier raise
    [FileNotFoundError] for that directory.  The adapter has tried to
    enter it and has gone back to the directory it started in; the
    wrapped tool was not called. *)
Theorem missing_tool_directory s t v dir :
  wrappedTool s = Some t ->
  verifierName s = Some v ->
  dict_get TOOL_TO_PATH_MAP v = Some dir ->
  isdir (path_join (cwd s) dir) = false ->
  isdir (cwd s) = true ->
  let tooldir := path_join (cwd s) dir in
  let s' := enter (cwd s) (log (EvChdir tooldir) s) in
  cwd s' = cwd s
  /\ events s' = events s ++ [EvChdir tooldir; EvChdir (cwd s)]
  /\ (forall rc rs out to,
        determine_result rc rs out to s = (s', Raised (FileNotFoundError tooldir)))
  /\ (forall exe opts tasks prop rl kn rest,
        parse_known_args opts = Some (kn, rest) ->
        lower (metaval kn) = v ->
        cmdline exe opts tasks prop rl s = (s', Raised (FileNotFoundError tooldir))).
Proof.
  intros Hw Hv Hk Hd Hc tooldir s'.
  split; [reflexivity |]. split; [simpl; now rewrite <- app_assoc |]. split.
  - intros rc rs out to.
    unfold determine_result, bind at 1, hasattr_wrappedTool.
    rewrite Hw. simpl.
    now rewrite (in_tool_directory_not_dir _ s v dir Hv Hk Hd Hc).
  - intros exe opts tasks prop rl kn rest Hp Hl. subst v.
    rewrite (cmdline_same _ _ _ _ _ s t kn rest Hw Hv Hp).
    unfold build_cmdline, bind at 1.
    now rewrite (in_tool_directory_not_dir _ s _ dir Hv Hk Hd Hc).
Qed.

(** X7.  An exception that the wrapped tool raises in its [executable] or
    in its [cmdline] leaves [cmdline] unchanged, after the working
    directory has been put back. *)
Theorem wrapped_tool_errors_propagate exe opts tasks p rl s t kn rest dir e :
  wrappedTool s = Some t ->
  verifierName s = Some (lower (metaval kn)) ->
  parse_known_args opts = Some (kn, rest) ->
  dict_get TOOL_TO_PATH_MAP (lower (metaval kn)) = Some dir ->
  isdir (path_join (cwd s) dir) = true ->
  isdir (cwd s) = true ->
  let tooldir := path_join (cwd s) dir in
  tool_executable t tooldir = Raised e
  \/ (exists exe',
        tool_executable t tooldir = Returned exe'
        /\ tool_cmdline t tooldir exe' rest
             [relpath tooldir (path_join (cwd s) "output/ARG.c")]
             (relpath tooldir (path_join (cwd s) p)) rl
           = Raised e) ->
  snd (cmdline exe opts tasks (Some p) rl s) = Raised e
  /\ cwd (fst (cmdline exe opts tasks (Some p) rl s)) = cwd s.
Proof.
  intros Hw Hv Hp Hk Hd Hc tooldir He.
  split; [| now apply cmdline_cwd].
  rewrite (cmdline_same _ _ _ _ _ s t kn rest Hw Hv Hp).
  unfold build_cmdline, bind at 1.
  rewrite (in_tool_directory_enter _ s _ dir Hv Hk Hd Hc).
  unfold bind at 1, getattr_wrappedTool. simpl. rewrite Hw.
  unfold bind at 1, call_executable. simpl. fold tooldir.
  destruct He as [He | (exe' & He & Hcall)]; rewrite He; [reflexivity |].
  unfold bind, os_path_join, os_path_relpath, ret, call_cmdline. simpl.
  fold tooldir. now rewrite Hcall.
Qed.

(** X9.  After a call of [cmdline] that returned, [determine_result] gives
    what the wrapped tool's [determine_result] gives in the directory in
    which [cmdline] called the wrapped tool, and it leaves the working
    directory where it was. *)
Theorem determine_result_after_cmdline exe opts tasks prop rl s s' argv :
  cmdline exe opts tasks prop rl s = (s', Returned argv) ->
  exists kn rest t dir,
    parse_known_args opts = Some (kn, rest)
    /\ dict_get TOOL_TO_PATH_MAP (lower (metaval kn)) = Some dir
    /\ wrappedTool s' = Some t
    /\ forall rc rs out to,
         snd (determine_result rc rs out to s')
         = tool_determine_result t (path_join (cwd s) dir) rc rs out to
         /\ cwd (fst (determine_result rc rs out to s')) = cwd s.
Proof.
  intros H. pose proof (cmdline_returned_cwd_exists _ _ _ _ _ _ _ _ H) as Hc.
  apply cmdline_returned in H.
  destruct H as (kn & rest & t & dir & p & exe' & sub & Hp & _ & Hw & Hv & Hk
                 & Hd & _ & _ & _ & Hcwd & _).
  exists kn, rest, t, dir. repeat split; trivial.
  - rewrite <- Hcwd in Hd, Hc.
    rewrite (determine_result_resolved rc rs out to s' t _ dir Hw Hv Hk Hd Hc).
    simpl. now rewrite Hcwd.
  - rewrite <- Hcwd in Hc. rewrite <- Hcwd. now apply determine_result_cwd.
Qed.

(** ** Where the adapter goes and where it calls the wrapped tool *)

Lemma dict_get_in_values d k v : dict_get d k = Some v -> In v (map snd d).
Proof.
  induction d as [| [k' v'] d IH]; simpl; [discriminate |].
  destruct (String.eqb k k').
  - intros H. injection H as ->. now left.
  - intros H. right. now apply IH.
Qed.

Lemma calls_tool_only_quiet {A} (m : M A) :
  (forall s, fst (m s) = s) -> calls_tool_only m.
Proof.
  intros H s. rewrite H. split; trivial.
  exists []. now rewrite app_nil_r.
Qed.

Lemma calls_tool_only_log {A} (m : M A) (e : string -> event) :
  (forall s, fst (m s) = log (e (cwd s)) s) ->
  (forall c, tool_call_at c (e c)) ->
  calls_tool_only m.
Proof.
  intros H He s. rewrite H. split; trivial.
  exists [e (cwd s)]. split; trivial. constructor; [apply He | constructor].
Qed.

Lemma calls_tool_only_bind {A B} (m : M A) (k : A -> M B) :
  calls_tool_only m -> (forall a, calls_tool_only (k a)) ->
  calls_tool_only (bind m k).
Proof.
  intros Hm Hk s. unfold bind.
  destruct (Hm s) as (Hc & l & Hl & Hf).
  destruct (m s) as [s1 [a | e]]; simpl in *.
  - destruct (Hk a s1) as (Hc' & l' & Hl' & Hf').
    split; [congruence |].
    exists (l ++ l'). split.
    + now rewrite Hl', Hl, app_assoc.
    + apply Forall_app. split; trivial. now rewrite <- Hc.
  - split; trivial. now exists l.
Qed.

Lemma calls_tool_only_os_path_join a b : calls_tool_only (os_path_join a b).
Proof. apply calls_tool_only_quiet. intros s. now destruct b. Qed.

Lemma calls_tool_only_getattr_wrappedTool : calls_tool_only getattr_wrappedTool.
Proof.
  apply calls_tool_only_quiet. intros s. unfold getattr_wrappedTool.
  now destruct (wrappedTool s).
Qed.

Lemma calls_tool_only_cmdline_body rest prop rl old :
  calls_tool_only
    (t' <- getattr_wrappedTool ;;
     exe <- call_executable t' ;;
     task <- (p <- os_path_join old (Some "output/ARG.c") ;; os_path_relpath p) ;;
     prop' <- (p <- os_path_join old prop ;; os_path_relpath p) ;;
     call_cmdline t' exe rest [task] prop' rl).
Proof.
  apply calls_tool_only_bind; [apply calls_tool_only_getattr_wrappedTool |].
  intros t. apply calls_tool_only_bind.
  { now apply (calls_tool_only_log _ EvExecutable). }
  intros exe. apply calls_tool_only_bind.
  { apply calls_tool_only_bind; [apply calls_tool_only_os_path_join |].
    intros p. now apply calls_tool_only_quiet. }
  intros task. apply calls_tool_only_bind.
  { apply calls_tool_only_bind; [apply calls_tool_only_os_path_join |].
    intros p. now apply calls_tool_only_quiet. }
  intros prop'.
  now apply (calls_tool_only_log _
               (fun c => EvCmdline c exe rest [task] prop' rl)).
Qed.

Lemma calls_tool_only_determine_body rc rs out to :
  calls_tool_only
    (t <- getattr_wrappedTool ;; call_determine_result t rc rs out to).
Proof.
  apply calls_tool_only_bind; [apply calls_tool_only_getattr_wrappedTool |].
  intros t.
  now apply (calls_tool_only_log _ (fun c => EvDetermineResult c rc rs out to)).
Qed.

Lemma tool_call_confined cwd0 c e :
  tool_directory cwd0 c -> tool_call_at c e -> confined cwd0 e.
Proof. intros Hd. destruct e; simpl; intros H; subst; tauto. Qed.

(** What a change of directory logs, whether it succeeds or not. *)
Lemma os_chdir_events p s : events (fst (os_chdir p s)) = events s ++ [EvChdir p].
Proof. unfold os_chdir. now destruct (isdir p). Qed.

Lemma in_tool_directory_confined {A} (body : string -> M A) s :
  (forall old, calls_tool_only (body old)) ->
  exists l, events (fst (_in_tool_directory body s)) = events s ++ l
            /\ Forall (confined (cwd s)) l.
Proof.
  intros Hb.
  unfold _in_tool_directory, with_lock, bind at 1, os_getcwd, try_finally.
  unfold bind at 1, getattr_verifierName.
  assert (Hback : confined (cwd s) (EvChdir (cwd s))) by now left.
  destruct (verifierName s) as [v |].
  2:{ exists [EvChdir (cwd s)]. split; [| now repeat constructor].
      unfold os_chdir. now destruct (isdir (cwd s)). }
  unfold bind at 1, dict_getitem.
  destruct (dict_get TOOL_TO_PATH_MAP v) as [dir |] eqn:Hk.
  2:{ exists [EvChdir (cwd s)]. split; [| now repeat constructor].
      unfold raise, os_chdir. now destruct (isdir (cwd s)). }
  assert (Hdir : tool_directory (cwd s) (path_join (cwd s) dir)).
  { exists dir. split; trivial. now apply (dict_get_in_values _ v). }
  unfold ret, bind at 1, os_chdir at 1.
  destruct (isdir (path_join (cwd s) dir)).
  - fold (enter (path_join (cwd s) dir) s).
    destruct (Hb (cwd s) (enter (path_join (cwd s) dir) s)) as (_ & l & Hl & Hf).
    destruct (body (cwd s) _) as [s1 r]. simpl in Hl, Hf.
    exists ([EvChdir (path_join (cwd s) dir)] ++ l ++ [EvChdir (cwd s)]). split.
    + transitivity (events s1 ++ [EvChdir (cwd s)]).
      * unfold os_chdir. now destruct (isdir (cwd s)).
      * rewrite Hl. now rewrite <- !app_assoc.
    + apply Forall_app. split; [constructor; [now right | constructor] |].
      apply Forall_app. split; [| now repeat constructor].
      eapply Forall_impl; [| exact Hf].
      intros e. now apply tool_call_confined.
  - exists [EvChdir (path_join (cwd s) dir); EvChdir (cwd s)]. split.
    + unfold os_chdir. simpl. destruct (isdir (cwd s)); simpl;
        now rewrite <- app_assoc.
    + constructor; [now right |]. now repeat constructor.
Qed.

Lemma resolve_wrappedTool_events v s :
  exists l, events (fst (resolve_wrappedTool v s)) = events s ++ l
            /\ Forall (confined (cwd s)) l.
Proof.
  destruct (wrappedTool s) as [t |] eqn:Hw.
  - exists []. rewrite app_nil_r. split; [| constructor].
    unfold resolve_wrappedTool, with_lock, bind, hasattr_wrappedTool.
    rewrite Hw. simpl. unfold getattr_verifierName.
    destruct (verifierName s) as [r |]; trivial.
    now destruct (String.eqb v r).
  - exists [EvImport (module_name v)]. split; [| now repeat constructor].
    rewrite (resolve_unresolved v s Hw). simpl.
    now destruct (import_Tool _).
Qed.

Lemma build_cmdline_events exe kn rest tasks prop rl s :
  exists l, events (fst (build_cmdline exe kn rest tasks prop rl s)) = events s ++ l
            /\ Forall (confined (cwd s)) l.
Proof.
  unfold build_cmdline, bind at 1.
  match goal with
  | |- context [_in_tool_directory ?b s] =>
      destruct (in_tool_directory_confined b s) as (l & Hl & Hf)
  end.
  { intros old. apply calls_tool_only_cmdline_body. }
  exists l. split; trivial.
  destruct (_in_tool_directory _ s) as [s1 [w | e]]; simpl in *; trivial.
  unfold bind, dict_getitem. now destruct (dict_get _ _).
Qed.

(** X8.  Whatever a call does and however it ends, it enters no directory
    other than the one it started in and the required paths inside it,
    and it calls the wrapped tool only from inside such a required
    path. *)
Theorem calls_are_confined c s :
  exists l, events (step c s) = events s ++ l
            /\ Forall (confined (cwd s)) l.
Proof.
  destruct c as [exe opts tasks prop rl | rc rs out to]; simpl.
  - rewrite cmdline_else_branch_dead.
    unfold cmdline_unchecked, bind at 1, parse_options.
    destruct (parse_known_args opts) as [[kn rest] |]; simpl.
    2:{ exists []. now rewrite app_nil_r. }
    unfold bind at 1.
    destruct (resolve_wrappedTool_events (lower (metaval kn)) s) as (l1 & Hl1 & Hf1).
    pose proof (resolve_wrappedTool_cwd (lower (metaval kn)) s) as Hc.
    destruct (resolve_wrappedTool _ s) as [s1 [u | e]]; simpl in *.
    + destruct (build_cmdline_events exe kn rest tasks prop rl s1) as (l2 & Hl2 & Hf2).
      exists (l1 ++ l2). split.
      * now rewrite Hl2, Hl1, app_assoc.
      * apply Forall_app. split; trivial. now rewrite <- Hc.
    + now exists l1.
  - unfold determine_result, bind at 1, hasattr_wrappedTool.
    destruct (wrappedTool s); simpl.
    + apply in_tool_directory_confined. intros old.
      apply calls_tool_only_determine_body.
    + exists []. now rewrite app_nil_r.
Qed.

(** X13.  A call of [cmdline] on an unresolved instance that ends in a
    usage error or in a failed load leaves the instance unresolved, and
    [determine_result] then returns ["METAVAL ERROR"] without touching
    the state. *)
Theorem sentinel_after_failed_resolution exe opts tasks prop rl s :
  wrappedTool s = None ->
  parse_known_args opts = None
  \/ (exists kn rest e,
        parse_known_args opts = Some (kn, rest)
        /\ import_Tool (module_name (lower (metaval kn))) = Raised e) ->
  let s1 := fst (cmdline exe opts tasks prop rl s) in
  wrappedTool s1 = None
  /\ forall rc rs out to,
       determine_result rc rs out to s1 = (s1, Returned "METAVAL ERROR").
Proof.
  intros Hw Hfail s1.
  assert (Hw1 : wrappedTool s1 = None).
  { unfold s1. destruct Hfail as [Hp | (kn & rest & e & Hp & Hi)].
    - now rewrite cmdline_usage_error.
    - destruct (cmdline_unresolved exe opts tasks prop rl s kn rest Hp Hw)
        as (_ & Hw1 & _).
      now rewrite Hi in Hw1. }
  split; trivial.
  intros rc rs out to.
  unfold determine_result, bind, hasattr_wrappedTool. now rewrite Hw1.
Qed.

End MoreProperties.

(** * [version] *)

Lemma splitlines_nil s : splitlines s = [] <-> s = EmptyString.
Proof.
  split; [| now intros ->].
  destruct s as [| c s]; trivial. simpl.
  destruct (is_linebreak c).
  - destruct s as [| c' s]; [discriminate |].
    destruct (andb _ _); discriminate.
  - destruct (splitlines s); discriminate.
Qed.

Lemma splitlines_first_one_line s : forall line lines,
  splitlines s = line :: lines -> one_line line = true.
Proof.
  induction s as [| c s IH]; intros line lines; simpl; [discriminate |].
  destruct (is_linebreak c) eqn:Hc.
  - destruct s as [| c' s'].
    + intros H. now injection H as <- _.
    + destruct (andb _ _); intros H; now injection H as <- _.
  - destruct (splitlines s) as [| l ls] eqn:Hs.
    + intros H. injection H as <- _. simpl. now rewrite Hc.
    + intros H. injection H as <- _. simpl. rewrite Hc. simpl.
      now apply (IH l ls).
Qed.


Lemma lstrip_starts s : starts_with_space (lstrip s) = false.
Proof.
  induction s as [| c s IH]; simpl; trivial.
  destruct (is_space c) eqn:Hc; simpl; trivial.
Qed.

Lemma lstrip_one_line s : one_line s = true -> one_line (lstrip s) = true.
Proof.
  induction s as [| c s IH]; simpl; trivial.
  intros H. destruct (is_space c); trivial.
  apply andb_prop in H. now apply IH.
Qed.

Lemma rstrip_ends s : ends_with_space (rstrip s) = false.
Proof.
  induction s as [| c s IH]; simpl; trivial.
  destruct (rstrip s) as [| a r].
  - destruct (is_space c) eqn:Hc; simpl; trivial.
  - exact IH.
Qed.

Lemma rstrip_starts s :
  starts_with_space s = false -> starts_with_space (rstrip s) = false.
Proof.
  destruct s as [| c s]; simpl; trivial.
  intros Hc. destruct (rstrip s); [now rewrite Hc | exact Hc].
Qed.

Lemma rstrip_one_line s : one_line s = true -> one_line (rstrip s) = true.
Proof.
  induction s as [| c s IH]; simpl; trivial.
  intros H. apply andb_prop in H. destruct H as [Hc Hs].
  specialize (IH Hs). destruct (rstrip s) as [| a r].
  - destruct (is_space c); simpl; trivial. now rewrite Hc.
  - simpl. rewrite Hc. exact IH.
Qed.








(** X10.  [version] raises [IndexError] exactly when [_version_from_tool]
    returns the empty string; for every other string it returns. *)
Theorem version_of_empty_output f exe :
  (version f exe = Raised IndexError <-> f exe "--version" = EmptyString)
  /\ (f exe "--version" <> EmptyString -> exists v, version f exe = Returned v).
Proof.
  unfold version. split; [split |].
  - intros H. apply splitlines_nil.
    destruct (splitlines (f exe "--version")); [trivial | discriminate].
  - now intros ->.
  - intros Hne.
    destruct (splitlines (f exe "--version")) as [| line lines] eqn:Hs.
    + apply splitlines_nil in Hs. contradiction.
    + now exists (strip line).
Qed.

(** X11.  What [version] returns has no white space at either end and no
    line boundary inside. *)
Theorem version_is_one_stripped_line f exe v :
  version f exe = Returned v ->
  starts_with_space v = false
  /\ ends_with_space v = false
  /\ one_line v = true.
Proof.
  unfold version.
  destruct (splitlines (f exe "--version")) as [| line lines] eqn:Hs;
    [discriminate |].
  intros H. injection H as <-. unfold strip.
  apply splitlines_first_one_line in Hs. repeat split.
  - apply rstrip_starts, lstrip_starts.
  - apply rstrip_ends.
  - now apply rstrip_one_line, lstrip_one_line.
Qed.


(** * The claims on the demonstration platform *)

Import Demo.

(** ** Runs *)

(** The example of the specification: options
    [--metaval ESBMC --metavalWitness w.graphml], one task, a property
    file. *)
Lemma cmdline_esbmc :
  cmdline "metaval.sh" esbmc_options ["t.c"] (Some "prop.prp") [] fresh
  = (after_esbmc,
     Returned (["metaval.sh"; "--verifier"; "esbmc"; "--witness"; "w.graphml";
                "t.c"; "--"] ++ esbmc_argv)).
Proof. reflexivity. Qed.

Lemma after_esbmc_state :
  verifierName after_esbmc = Some "esbmc"
  /\ wrappedTool after_esbmc = Some (stub "esbmc")
  /\ cwd after_esbmc = "/bench"
  /\ events after_esbmc
     = [ EvImport "benchexec.tools.esbmc";
         EvChdir "/bench/esbmc";
         EvExecutable "/bench/esbmc";
         EvCmdline "/bench/esbmc" "/bench/esbmc/esbmc" []
           ["../output/ARG.c"] "../prop.prp" [];
         EvChdir "/bench" ].
Proof. repeat split. Qed.

Lemma requests_esbmc : requests (call_with esbmc_options) "esbmc".
Proof. simpl. eexists. eexists. split; reflexivity. Defined.

(** ** Witnesses *)

Lemma cmdline_argument_vector_witness :
  cmdline "metaval.sh" esbmc_options ["t.c"] (Some "prop.prp") [] fresh
  = (after_esbmc,
     Returned (["metaval.sh"; "--verifier"; "esbmc"; "--witness"; "w.graphml";
                "t.c"; "--"] ++ esbmc_argv))
  /\ exists kn rest dir t p exe' sub,
       parse_known_args esbmc_options = Some (kn, rest)
       /\ Some "prop.prp" = Some p
       /\ dict_get TOOL_TO_PATH_MAP (lower (metaval kn)) = Some dir
       /\ wrappedTool after_esbmc = Some t
       /\ tool_executable t (path_join (cwd fresh) dir) = Returned exe'
       /\ tool_cmdline t (path_join (cwd fresh) dir) exe' rest
            [relpath (path_join (cwd fresh) dir)
               (path_join (cwd fresh) "output/ARG.c")]
            (relpath (path_join (cwd fresh) dir) (path_join (cwd fresh) p)) []
          = Returned sub
       /\ ["metaval.sh"; "--verifier"; "esbmc"; "--witness"; "w.graphml";
           "t.c"; "--"] ++ esbmc_argv
          = argument_vector "metaval.sh" dir (metavalWitness kn)
              (nonempty (metavalAdditionalPATH kn))
              (nonempty (metavalWitnessType kn)) ["t.c"] sub.
Proof.
  split; [reflexivity |].
  exact (cmdline_argument_vector "metaval.sh" esbmc_options ["t.c"]
           (Some "prop.prp") [] fresh after_esbmc
           (["metaval.sh"; "--verifier"; "esbmc"; "--witness"; "w.graphml";
             "t.c"; "--"] ++ esbmc_argv)
           eq_refl).
Defined.

Lemma resolved_identifier_never_changes_witness :
  wrappedTool after_esbmc = Some (stub "esbmc")
  /\ verifierName after_esbmc = Some "esbmc"
  /\ let s' := run [call_with cbmc_options; CallDetermineResult 0 0 [] false]
                 after_esbmc in
     wrappedTool s' = Some (stub "esbmc")
     /\ verifierName s' = Some "esbmc"
     /\ forall exe opts tasks prop rl kn rest,
          parse_known_args opts = Some (kn, rest) ->
          lower (metaval kn) <> "esbmc" ->
          cmdline exe opts tasks prop rl s' = (s', Raised mixed_tools).
Proof.
  split; [reflexivity |]. split; [reflexivity |].
  apply (resolved_identifier_never_changes after_esbmc (stub "esbmc") "esbmc");
    reflexivity.
Defined.

Lemma working_directory_restored_witness :
  isdir (cwd fresh) = true
  /\ cwd (step (call_with esbmc_options) fresh) = cwd fresh.
Proof.
  split; [reflexivity |].
  apply (working_directory_restored (call_with esbmc_options) fresh).
  reflexivity.
Defined.

Lemma determine_result_delegates_witness :
  determine_result 0 0 [] false fresh = (fresh, Returned "METAVAL ERROR")
  /\ verifierName after_esbmc = Some "esbmc"
  /\ dict_get TOOL_TO_PATH_MAP "esbmc" = Some "esbmc"
  /\ isdir (path_join (cwd after_esbmc) "esbmc") = true
  /\ isdir (cwd after_esbmc) = true
  /\ snd (determine_result 0 0 [] false after_esbmc)
     = tool_determine_result (stub "esbmc") "/bench/esbmc" 0 0 [] false
  /\ events (fst (determine_result 0 0 [] false after_esbmc))
     = events after_esbmc
         ++ [ EvChdir "/bench/esbmc";
              EvDetermineResult "/bench/esbmc" 0 0 [] false;
              EvChdir "/bench" ].
Proof.
  split; [exact (determine_result_delegates 0 0 [] false fresh) |].
  do 4 (split; [reflexivity |]).
  exact (determine_result_delegates 0 0 [] false after_esbmc "esbmc" "esbmc"
           eq_refl eq_refl eq_refl eq_refl).
Defined.

Lemma wrapped_cmdline_arguments_witness :
  cmdline "metaval.sh" esbmc_options ["t.c"] (Some "prop.prp") [] fresh
  = (after_esbmc,
     Returned (["metaval.sh"; "--verifier"; "esbmc"; "--witness"; "w.graphml";
                "t.c"; "--"] ++ esbmc_argv))
  /\ exists kn rest t dir p exe' loaded,
       parse_known_args esbmc_options = Some (kn, rest)
       /\ Some "prop.prp" = Some p
       /\ wrappedTool after_esbmc = Some t
       /\ dict_get TOOL_TO_PATH_MAP (lower (metaval kn)) = Some dir
       /\ let tooldir := path_join (cwd fresh) dir in
          tool_executable t tooldir = Returned exe'
          /\ Forall (fun e => is_import e = true) loaded
          /\ events after_esbmc =
               events fresh ++ loaded
                 ++ [ EvChdir tooldir;
                      EvExecutable tooldir;
                      EvCmdline tooldir exe' rest
                        [relpath tooldir (path_join (cwd fresh) "output/ARG.c")]
                        (relpath tooldir (path_join (cwd fresh) p))
                        [];
                      EvChdir (cwd fresh) ].
Proof.
  split; [reflexivity |].
  exact (wrapped_cmdline_arguments "metaval.sh" esbmc_options ["t.c"]
           (Some "prop.prp") [] fresh after_esbmc
           (["metaval.sh"; "--verifier"; "esbmc"; "--witness"; "w.graphml";
             "t.c"; "--"] ++ esbmc_argv)
           eq_refl).
Defined.

Lemma wrapped_tool_constructed_once_witness :
  import_Tool (module_name "esbmc") = Returned (stub "esbmc")
  /\ wrappedTool fresh = None
  /\ requests (call_with esbmc_options) "esbmc"
  /\ Forall (fun c' => requests c' "esbmc")
       [call_with esbmc_options; call_with esbmc_options]
  /\ let s1 := step (call_with esbmc_options) fresh in
     let cs := [call_with esbmc_options; call_with esbmc_options] in
     wrappedTool s1 = Some (stub "esbmc")
     /\ imports s1 = S (imports fresh)
     /\ wrappedTool (run cs s1) = Some (stub "esbmc")
     /\ imports (run cs s1) = imports s1.
Proof.
  split; [reflexivity |]. split; [reflexivity |].
  split; [exact requests_esbmc |].
  split; [repeat constructor; exact requests_esbmc |].
  apply (wrapped_tool_constructed_once "esbmc" (stub "esbmc")
           (call_with esbmc_options)
           [call_with esbmc_options; call_with esbmc_options] fresh).
  - reflexivity.
  - reflexivity.
  - exact requests_esbmc.
  - repeat constructor; exact requests_esbmc.
Defined.

Lemma wrapped_tool_set_after_resolution_witness :
  resolve_wrappedTool "esbmc" fresh = (resolved_esbmc, Returned tt)
  /\ (exists t, wrappedTool resolved_esbmc = Some t)
  /\ forall (A : Type) (found : M A),
       (has <- hasattr_wrappedTool ;;
        if has then found else raise could_not_find) resolved_esbmc
       = found resolved_esbmc.
Proof.
  split; [reflexivity |].
  apply (wrapped_tool_set_after_resolution "esbmc" fresh resolved_esbmc tt).
  reflexivity.
Defined.

Lemma unmapped_identifier_key_error_witness :
  parse_known_args cbmc_options
  = Some ({| metavalWitness := "w.graphml"; metaval := "cbmc";
             metavalAdditionalPATH := None; metavalWitnessType := None |}, [])
  /\ import_Tool (module_name "cbmc") = Returned (stub "cbmc")
  /\ dict_get TOOL_TO_PATH_MAP "cbmc" = None
  /\ wrappedTool fresh = None
  /\ isdir (cwd fresh) = true
  /\ let s2 := run [call_with esbmc_options] after_cbmc in
     snd (cmdline "metaval.sh" cbmc_options ["t.c"] (Some "prop.prp") [] fresh)
     = Raised (KeyError "cbmc")
     /\ wrappedTool after_cbmc = Some (stub "cbmc")
     /\ verifierName after_cbmc = Some "cbmc"
     /\ wrappedTool s2 = Some (stub "cbmc")
     /\ verifierName s2 = Some "cbmc"
     /\ (forall rc rs out to,
           snd (determine_result rc rs out to s2) = Raised (KeyError "cbmc"))
     /\ (forall exe' opts' tasks' prop' rl' kn' rest',
           parse_known_args opts' = Some (kn', rest') ->
           lower (metaval kn') = "cbmc" ->
           snd (cmdline exe' opts' tasks' prop' rl' s2)
           = Raised (KeyError "cbmc")).
Proof.
  do 5 (split; [reflexivity |]).
  apply (unmapped_identifier_key_error "metaval.sh" cbmc_options ["t.c"]
           (Some "prop.prp") []
           {| metavalWitness := "w.graphml"; metaval := "cbmc";
              metavalAdditionalPATH := None; metavalWitnessType := None |}
           [] (stub "cbmc") fresh [call_with esbmc_options]);
    reflexivity.
Defined.

(** ** Where the code leaves the claims *)

(** C1 as stated fails: with [--metavalAdditionalPATH] given and its value
    the empty string, [cmdline] returns an argument vector without
    ["--additionalPATH"]. *)
Lemma argument_vector_omits_empty_value :
  exists kn rest s' argv,
    parse_known_args empty_path_options = Some (kn, rest)
    /\ metavalAdditionalPATH kn = Some ""
    /\ cmdline "metaval.sh" empty_path_options ["t.c"] (Some "prop.prp") [] fresh
       = (s', Returned argv)
    /\ forall dir sub,
         argv <> argument_vector "metaval.sh" dir (metavalWitness kn)
                   (metavalAdditionalPATH kn) (metavalWitnessType kn)
                   ["t.c"] sub.
Proof.
  exists {| metavalWitness := "w.graphml"; metaval := "ESBMC";
            metavalAdditionalPATH := Some ""; metavalWitnessType := None |}.
  exists [], (step (call_with empty_path_options) fresh).
  exists (["metaval.sh"; "--verifier"; "esbmc"; "--witness"; "w.graphml";
           "t.c"; "--"] ++ esbmc_argv).
  split; [reflexivity |]. split; [reflexivity |]. split; [reflexivity |].
  intros dir sub H. vm_compute in H. discriminate H.
Qed.

(** C2 as stated fails: a first call whose module cannot be loaded records
    its identifier all the same, and a later call with another identifier
    is served and replaces the record. *)
Lemma recorded_identifier_replaced_after_load_failure :
  verifierName after_missing = Some "nosuchtool"
  /\ wrappedTool after_missing = None
  /\ cmdline "metaval.sh" esbmc_options ["t.c"] (Some "prop.prp") [] after_missing
     = (step (call_with esbmc_options) after_missing,
        Returned (["metaval.sh"; "--verifier"; "esbmc"; "--witness"; "w.graphml";
                   "t.c"; "--"] ++ esbmc_argv))
  /\ verifierName (step (call_with esbmc_options) after_missing) = Some "esbmc".
Proof. repeat split. Qed.

(** C4 as stated fails: on an instance resolved to [cbmc], which has no
    entry in [TOOL_TO_PATH_MAP], [determine_result] raises [KeyError]
    where the wrapped tool would have returned ["true"]. *)
Lemma determine_result_raises_on_unmapped_identifier :
  wrappedTool after_cbmc = Some (stub "cbmc")
  /\ (forall dir, tool_determine_result (stub "cbmc") dir 0 0 [] false
                  = Returned "true")
  /\ determine_result 0 0 [] false after_cbmc
     = (enter "/bench" after_cbmc, Raised (KeyError "cbmc")).
Proof. repeat split. Qed.

(** C5: the module of [nosuchtool] cannot be loaded, and [cmdline] raises
    the [ImportError] of the load to its caller; it does not exit. *)
Theorem load_failure_raises_import_error :
  cmdline "metaval.sh" missing_options ["t.c"] (Some "prop.prp") [] fresh
  = ({| verifierName := Some "nosuchtool"; wrappedTool := None;
        cwd := "/bench";
        events := [EvImport "benchexec.tools.nosuchtool"] |},
     Raised (ImportError "benchexec.tools.nosuchtool")).
Proof.
  apply (cmdline_load_failure "metaval.sh" missing_options ["t.c"]
           (Some "prop.prp") [] fresh
           {| metavalWitness := "w.graphml"; metaval := "nosuchtool";
              metavalAdditionalPATH := None; metavalWitnessType := None |}
           []); reflexivity.
Qed.

(** With the options of the example and no property file, the wrapped tool
    is resolved, its directory is entered and left, and the call raises
    [TypeError]. *)
Lemma cmdline_esbmc_without_propertyfile :
  cmdline "metaval.sh" esbmc_options ["t.c"] None [] fresh
  = ({| verifierName := Some "esbmc"; wrappedTool := Some (stub "esbmc");
        cwd := "/bench";
        events := [ EvImport "benchexec.tools.esbmc";
                    EvChdir "/bench/esbmc";
                    EvExecutable "/bench/esbmc";
                    EvChdir "/bench" ] |},
     Raised (TypeError "expected str, bytes or os.PathLike object, not NoneType")).
Proof. reflexivity. Qed.

(** C8 as stated fails: for an identifier whose module cannot be loaded,
    two calls load twice and construct nothing. *)
Lemma unloadable_identifier_is_loaded_on_every_call :
  requests (call_with missing_options) "nosuchtool"
  /\ imports (run [call_with missing_options; call_with missing_options] fresh) = 2
  /\ wrappedTool (run [call_with missing_options; call_with missing_options] fresh)
     = None.
Proof.
  split; [| split; reflexivity].
  simpl. eexists. eexists. split; reflexivity.
Qed.

(** C10 as stated fails: on the instance that the failed call for [cbmc]
    left, a call of [cmdline] for another identifier ends in the exit for
    mixed tools, not in the [KeyError]. *)
Lemma other_identifier_exits_after_key_error :
  snd (cmdline "metaval.sh" cbmc_options ["t.c"] (Some "prop.prp") [] fresh)
  = Raised (KeyError "cbmc")
  /\ wrappedTool after_cbmc = Some (stub "cbmc")
  /\ cmdline "metaval.sh" esbmc_options ["t.c"] (Some "prop.prp") [] after_cbmc
     = (after_cbmc, Raised mixed_tools)
  /\ Raised mixed_tools <> @Raised (list string) (KeyError "cbmc").
Proof. repeat split. discriminate. Qed.

(** ** Witnesses of the further properties *)

Lemma usage_error_exits_first_witness :
  parse_known_args incomplete_options = None
  /\ cmdline "metaval.sh" incomplete_options ["t.c"] (Some "prop.prp") [] fresh
     = (fresh, Raised (SystemExit (ExitStatus 2)))
  /\ step (CallCmdline "metaval.sh" incomplete_options ["t.c"] (Some "prop.prp") [])
       fresh = fresh.
Proof.
  split; [reflexivity |].
  apply (usage_error_exits_first "metaval.sh" incomplete_options ["t.c"]
           (Some "prop.prp") [] fresh).
  reflexivity.
Defined.

Lemma identifier_case_is_ignored_witness :
  parse_known_args esbmc_options
  = Some ({| metavalWitness := "w.graphml"; metaval := "ESBMC";
             metavalAdditionalPATH := None; metavalWitnessType := None |}, [])
  /\ parse_known_args lowercase_options
     = Some ({| metavalWitness := "w.graphml"; metaval := "esbmc";
                metavalAdditionalPATH := None; metavalWitnessType := None |}, [])
  /\ lower "ESBMC" = lower "esbmc"
  /\ cmdline "metaval.sh" esbmc_options ["t.c"] (Some "prop.prp") [] fresh
     = cmdline "metaval.sh" lowercase_options ["t.c"] (Some "prop.prp") [] fresh.
Proof.
  do 3 (split; [reflexivity |]).
  apply (identifier_case_is_ignored "metaval.sh" esbmc_options lowercase_options
           ["t.c"] (Some "prop.prp") [] fresh
           {| metavalWitness := "w.graphml"; metaval := "ESBMC";
              metavalAdditionalPATH := None; metavalWitnessType := None |}
           {| metavalWitness := "w.graphml"; metaval := "esbmc";
              metavalAdditionalPATH := None; metavalWitnessType := None |}
           []);
    reflexivity.
Defined.

Lemma wrapped_tool_matches_identifier_witness :
  wrappedTool (run [call_with esbmc_options] (init "/bench")) = Some (stub "esbmc")
  /\ exists v,
       verifierName (run [call_with esbmc_options] (init "/bench")) = Some v
       /\ import_Tool (module_name v) = Returned (stub "esbmc").
Proof.
  split; [reflexivity |].
  apply (wrapped_tool_matches_identifier [call_with esbmc_options] "/bench"
           (stub "esbmc")).
  reflexivity.
Defined.

Lemma recorded_identifier_is_lowercase_witness :
  verifierName (run [call_with esbmc_options] (init "/bench")) = Some "esbmc"
  /\ lower "esbmc" = "esbmc".
Proof.
  split; [reflexivity |].
  apply (recorded_identifier_is_lowercase [call_with esbmc_options] "/bench"
           "esbmc").
  reflexivity.
Defined.

Lemma missing_tool_directory_witness :
  wrappedTool misplaced = Some (stub "esbmc")
  /\ verifierName misplaced = Some "esbmc"
  /\ dict_get TOOL_TO_PATH_MAP "esbmc" = Some "esbmc"
  /\ isdir (path_join (cwd misplaced) "esbmc") = false
  /\ isdir (cwd misplaced) = true
  /\ let tooldir := path_join (cwd misplaced) "esbmc" in
     let s' := enter (cwd misplaced) (log (EvChdir tooldir) misplaced) in
     cwd s' = cwd misplaced
     /\ events s' = events misplaced ++ [EvChdir tooldir; EvChdir (cwd misplaced)]
     /\ (forall rc rs out to,
           determine_result rc rs out to misplaced
           = (s', Raised (FileNotFoundError tooldir)))
     /\ (forall exe opts tasks prop rl kn rest,
           parse_known_args opts = Some (kn, rest) ->
           lower (metaval kn) = "esbmc" ->
           cmdline exe opts tasks prop rl misplaced
           = (s', Raised (FileNotFoundError tooldir))).
Proof.
  do 5 (split; [reflexivity |]).
  exact (missing_tool_directory misplaced (stub "esbmc") "esbmc" "esbmc"
           eq_refl eq_refl eq_refl eq_refl eq_refl).
Defined.

Lemma wrapped_tool_errors_propagate_witness :
  wrappedTool broken_instance = Some broken_tool
  /\ verifierName broken_instance = Some (lower "ESBMC")
  /\ dict_get TOOL_TO_PATH_MAP (lower "ESBMC") = Some "esbmc"
  /\ isdir (path_join (cwd broken_instance) "esbmc") = true
  /\ isdir (cwd broken_instance) = true
  /\ tool_executable broken_tool (path_join (cwd broken_instance) "esbmc")
     = Raised (OtherError "executable not found")
  /\ snd (cmdline "metaval.sh" esbmc_options ["t.c"] (Some "prop.prp") []
            broken_instance)
     = Raised (OtherError "executable not found")
  /\ cwd (fst (cmdline "metaval.sh" esbmc_options ["t.c"] (Some "prop.prp") []
                 broken_instance))
     = cwd broken_instance.
Proof.
  do 6 (split; [reflexivity |]).
  exact (wrapped_tool_errors_propagate "metaval.sh" esbmc_options ["t.c"]
           "prop.prp" [] broken_instance broken_tool
           {| metavalWitness := "w.graphml"; metaval := "ESBMC";
              metavalAdditionalPATH := None; metavalWitnessType := None |}
           [] "esbmc" (OtherError "executable not found")
           eq_refl eq_refl eq_refl eq_refl eq_refl eq_refl
           (or_introl eq_refl)).
Defined.

Lemma determine_result_after_cmdline_witness :
  cmdline "metaval.sh" esbmc_options ["t.c"] (Some "prop.prp") [] fresh
  = (after_esbmc,
     Returned (["metaval.sh"; "--verifier"; "esbmc"; "--witness"; "w.graphml";
                "t.c"; "--"] ++ esbmc_argv))
  /\ exists kn rest t dir,
       parse_known_args esbmc_options = Some (kn, rest)
       /\ dict_get TOOL_TO_PATH_MAP (lower (metaval kn)) = Some dir
       /\ wrappedTool after_esbmc = Some t
       /\ forall rc rs out to,
            snd (determine_result rc rs out to after_esbmc)
            = tool_determine_result t (path_join (cwd fresh) dir) rc rs out to
            /\ cwd (fst (determine_result rc rs out to after_esbmc)) = cwd fresh.
Proof.
  split; [reflexivity |].
  exact (determine_result_after_cmdline "metaval.sh" esbmc_options ["t.c"]
           (Some "prop.prp") [] fresh after_esbmc
           (["metaval.sh"; "--verifier"; "esbmc"; "--witness"; "w.graphml";
             "t.c"; "--"] ++ esbmc_argv)
           eq_refl).
Defined.

Lemma version_is_one_stripped_line_witness :
  version printed_version "metaval.sh" = Returned "MetaVal 1.0"
  /\ starts_with_space "MetaVal 1.0" = false
  /\ ends_with_space "MetaVal 1.0" = false
  /\ one_line "MetaVal 1.0" = true.
Proof.
  split; [reflexivity |].
  apply (version_is_one_stripped_line printed_version "metaval.sh").
  reflexivity.
Defined.


Lemma version_of_empty_output_witness :
  printed_version "metaval.sh" "--version" <> EmptyString
  /\ exists v, version printed_version "metaval.sh" = Returned v.
Proof.
  split; [discriminate |].
  apply (version_of_empty_output printed_version "metaval.sh").
  discriminate.
Defined.

Lemma sentinel_after_failed_resolution_witness :
  wrappedTool fresh = None
  /\ import_Tool (module_name (lower "nosuchtool"))
     = Raised (ImportError "benchexec.tools.nosuchtool")
  /\ wrappedTool after_missing = None
  /\ forall rc rs out to,
       determine_result rc rs out to after_missing
       = (after_missing, Returned "METAVAL ERROR").
Proof.
  do 2 (split; [reflexivity |]).
  apply (sentinel_after_failed_resolution "metaval.sh" missing_options ["t.c"]
           (Some "prop.prp") [] fresh); [reflexivity |].
  right.
  exists {| metavalWitness := "w.graphml"; metaval := "nosuchtool";
            metavalAdditionalPATH := None; metavalWitnessType := None |}.
  exists [], (ImportError "benchexec.tools.nosuchtool").
  split; reflexivity.
Defined.
